(** * go-lvc3-vm: a shallow embedding of [main.go]

    The virtual machine of [main.go] is a fetch-decode-execute loop over two
    global arrays, [memory] and [registers], with the keyboard and the
    terminal as collaborators.  Every Go function is translated to a Rocq
    function of the same name that passes the machine explicitly; a Go panic
    (index out of range, [checkErr], [panic("not implemented")]) is the
    [Panic] outcome.

    - [uint16] values are integers of [Z] in [0, 65536); additions wrap with
      [wrap16], bit operations are [Z.land], [Z.lor], [Z.shiftl], [Z.shiftr].
    - The arrays [memory] and [registers] are lists read with stdpp's lookup
      and written with its insert; an index at or beyond the length panics,
      as the Go runtime does.
    - The diagnostic lines that [main] and [readImageFile] write with [fmt]
      are not part of the machine and are left out. *)

From Stdlib Require Import ZArith List Lia Bool.
From stdpp Require Import base list.
Import ListNotations.

#[local] Open Scope Z_scope.

(** ** Constants *)

Definition uint16Max : Z := 65535.

Definition R0 : Z := 0.
Definition R1 : Z := 1.
Definition R2 : Z := 2.
Definition R3 : Z := 3.
Definition R4 : Z := 4.
Definition R5 : Z := 5.
Definition R6 : Z := 6.
Definition R7 : Z := 7.
Definition RPc : Z := 8.
Definition RCond : Z := 9.
Definition RCount : Z := 10.

Definition MrKbsr : Z := 0xFE00.
Definition MrKbdr : Z := 0xFE02.

Definition OpBreak : Z := 0.
Definition OpAdd : Z := 1.
Definition OpLoad : Z := 2.
Definition OpStore : Z := 3.
Definition OpJumpRegister : Z := 4.
Definition OpAnd : Z := 5.
Definition OpLoadRegister : Z := 6.
Definition OpStoreRegister : Z := 7.
Definition OpRti : Z := 8.
Definition OpNot : Z := 9.
Definition OpLoadIndirect : Z := 10.
Definition OpStoreIndirect : Z := 11.
Definition OpJump : Z := 12.
Definition OpRes : Z := 13.
Definition OpLoadEffectiveAddress : Z := 14.
Definition OpTrap : Z := 15.

Definition TrapGetC : Z := 0x20.
Definition TrapOut : Z := 0x21.
Definition TrapPutS : Z := 0x22.
Definition TrapIn : Z := 0x23.
Definition TrapPutSP : Z := 0x24.
Definition TrapHalt : Z := 0x25.

Definition FlagPositive : Z := Z.shiftl 1 0.
Definition FlagZero : Z := Z.shiftl 1 1.
Definition FlagNegative : Z := Z.shiftl 1 2.

Definition PcStart : Z := 0x3000.

(** ** Outcomes *)

Inductive failure : Type :=
| IndexOutOfRange      (* runtime error: index out of range *)
| NotImplemented       (* panic("not implemented") *)
| ReadFailed           (* checkErr on reader.ReadRune *)
| OpenFailed.          (* checkErr on os.Open *)

Inductive outcome (A : Type) : Type :=
| Ok (a : A)
| Panic (e : failure)
| OutOfFuel.

Arguments Ok {A} a.
Arguments Panic {A} e.
Arguments OutOfFuel {A}.

#[global] Instance outcome_ret : MRet outcome := fun A a => Ok a.

#[global] Instance outcome_bind : MBind outcome := fun A B k m =>
  match m with
  | Ok a => k a
  | Panic e => Panic e
  | OutOfFuel => OutOfFuel
  end.

(** ** Machine state *)

(** [memory] and [registers] are the two global arrays.  [reader] is what is
    still to come on standard input, as the runes [ReadRune] will return;
    [screen] is what the successive calls of curses' [Getch] will answer
    (0 once the script is used up); [shutdownCh] is the number of cycles
    after which the interrupt channel is seen closed, if ever; [printed] is
    the bytes written by the builtin [print]. *)
Record VM : Type := mkVM {
  memory : list Z;
  registers : list Z;
  reader : list Z;
  screen : list Z;
  shutdownCh : option nat;
  printed : list Z
}.

Definition withMemory (m : list Z) (st : VM) : VM :=
  mkVM m (registers st) (reader st) (screen st) (shutdownCh st) (printed st).

Definition withRegisters (r : list Z) (st : VM) : VM :=
  mkVM (memory st) r (reader st) (screen st) (shutdownCh st) (printed st).

Definition withPrinted (p : list Z) (st : VM) : VM :=
  mkVM (memory st) (registers st) (reader st) (screen st) (shutdownCh st) p.

(** Conversion to [uint16]. *)
Definition wrap16 (z : Z) : Z := z mod 65536.

(** [a[i]] and [a[i] = v] on a Go array. *)
Definition index (a : list Z) (i : Z) : outcome Z :=
  match a !! Z.to_nat i with
  | Some v => Ok v
  | None => Panic IndexOutOfRange
  end.

Definition assign (a : list Z) (i v : Z) : outcome (list Z) :=
  match a !! Z.to_nat i with
  | Some _ => Ok (<[Z.to_nat i := v]> a)
  | None => Panic IndexOutOfRange
  end.

Definition getReg (r : Z) (st : VM) : outcome Z := index (registers st) r.

Definition setReg (r v : Z) (st : VM) : outcome VM :=
  regs ← assign (registers st) r v; Ok (withRegisters regs st).

Definition getMem (address : Z) (st : VM) : outcome Z := index (memory st) address.

Definition setMem (address v : Z) (st : VM) : outcome VM :=
  mem ← assign (memory st) address v; Ok (withMemory mem st).

(** The machine before [main] runs: both arrays zeroed. *)
Definition initial (input keys : list Z) (sd : option nat) : VM :=
  mkVM (replicate (Z.to_nat uint16Max) 0) (replicate (Z.to_nat RCount) 0)
       input keys sd [].

(** A machine is well formed when its arrays have the declared lengths. *)
Record wf (st : VM) : Prop := mkWf {
  wf_memory : Z.of_nat (length (memory st)) = uint16Max;
  wf_registers : Z.of_nat (length (registers st)) = RCount
}.

(** ** Collaborators *)

(** [string(x)] for an integer [x]: the UTF-8 encoding of the code point. *)
Definition stringOfRune (r : Z) : list Z :=
  if r <? 0x80 then [r]
  else if r <? 0x800 then
    [Z.lor 0xC0 (Z.shiftr r 6); Z.lor 0x80 (Z.land r 0x3F)]
  else if (0xD800 <=? r) && (r <=? 0xDFFF) then [0xEF; 0xBF; 0xBD]
  else [Z.lor 0xE0 (Z.shiftr r 12);
        Z.lor 0x80 (Z.land (Z.shiftr r 6) 0x3F);
        Z.lor 0x80 (Z.land r 0x3F)].

Definition print (s : list Z) (st : VM) : VM :=
  withPrinted (printed st ++ s) st.

Definition haltNotice : list Z := [104; 97; 108; 116].  (* "halt" *)

Definition enterPrompt : list Z :=  (* "Enter a character: " *)
  [69; 110; 116; 101; 114; 32; 97; 32; 99; 104; 97; 114; 97; 99; 116; 101;
   114; 58; 32].

Definition getChar (st : VM) : outcome (Z * VM) :=
  match reader st with
  | [] => Panic ReadFailed
  | char :: rest =>
      Ok (wrap16 (char mod 256),
          mkVM (memory st) (registers st) rest (screen st) (shutdownCh st)
               (printed st))
  end.

Definition checkKey (st : VM) : bool * VM :=
  match screen st with
  | [] => (false, st)
  | ch :: rest =>
      (negb (ch =? 0),
       mkVM (memory st) (registers st) (reader st) rest (shutdownCh st)
            (printed st))
  end.

(** ** Memory access *)

Definition memRead (address : Z) (st : VM) : outcome (Z * VM) :=
  st1 ← (if address =? MrKbsr then
            let '(pending, st') := checkKey st in
            if pending then
              st2 ← setMem MrKbsr (Z.shiftl 0x1 15) st';
              '(c, st3) ← getChar st2;
              setMem MrKbdr c st3
            else Ok st'
          else setMem MrKbsr 0 st);
  v ← getMem address st1;
  Ok (v, st1).

Definition memWrite (address value : Z) (st : VM) : outcome VM :=
  setMem address value st.

Definition signExtend (num bitCount : Z) : Z :=
  if Z.land (Z.shiftr num (bitCount - 1)) 1 =? 1 then
    Z.lor num (wrap16 (Z.shiftl 0xffff bitCount))
  else num.

(** Modelled from the spec: the value of the mask [0xffff << bitCount] of
    [pcPlusOffset], which the source combines with an [int16].  The
    constant 0xffff is not an [int16], so the source expression fixes no
    value for it; the rule of the specification for every signed field, a
    mask of 1s above bit N-1, gives the 16-bit pattern that [signExtend]
    uses. *)
Definition int16Mask (bitCount : Z) : Z := wrap16 (Z.shiftl 0xffff bitCount).

(** [int16] values are kept as their 16-bit patterns: the signed addition
    wraps and the conversion back to [uint16] keeps the pattern.  Only the
    branch taken when the top bit of the field is set uses [int16Mask]. *)
Definition pcPlusOffset (valInPc num bitCount : Z) : Z :=
  let signedNum :=
    if Z.land (Z.shiftr num (bitCount - 1)) 1 =? 1 then
      Z.lor num (int16Mask bitCount)
    else num in
  wrap16 (valInPc + signedNum).

Definition updateFlags (register : Z) (st : VM) : outcome VM :=
  r ← getReg register st;
  if r =? 0 then setReg RCond FlagZero st
  else if Z.shiftr r 15 =? 1 then setReg RCond FlagNegative st
  else setReg RCond FlagPositive st.

(** ** Instruction handlers

    One definition per case of the [switch opCode] in [main]; each receives
    the machine as it is after the fetch and the increment of the program
    counter, and returns it with the new value of [running]. *)

Definition caseOpBreak (instruction : Z) (st : VM) : outcome VM :=
  let isNegative := Z.land (Z.shiftr instruction 11) 0x1 =? 1 in
  let isZero := Z.land (Z.shiftr instruction 10) 0x1 =? 1 in
  let isPositive := Z.land (Z.shiftr instruction 9) 0x1 =? 1 in
  cond ← getReg RCond st;
  let isSet := (isNegative && (cond =? FlagNegative))
               || (isZero && (cond =? FlagZero))
               || (isPositive && (cond =? FlagPositive)) in
  if isSet then
    pc ← getReg RPc st;
    setReg RPc (pcPlusOffset pc (Z.land instruction 0x1fff) 9) st
  else Ok st.

Definition caseOpAdd (instruction : Z) (st : VM) : outcome VM :=
  let destRegister := Z.land (Z.shiftr instruction 9) 0x7 in
  let firstOperand := Z.land (Z.shiftr instruction 6) 0x7 in
  let immFlag := Z.land (Z.shiftr instruction 5) 0x1 in
  st1 ← (if immFlag =? 1 then
           let imm5 := signExtend (Z.land instruction 0x1F) 5 in
           a ← getReg firstOperand st;
           setReg destRegister (wrap16 (a + imm5)) st
         else
           let secondOperand := Z.land instruction 0x7 in
           a ← getReg firstOperand st;
           b ← getReg secondOperand st;
           setReg destRegister (wrap16 (a + b)) st);
  updateFlags destRegister st1.

Definition caseOpLoad (instruction : Z) (st : VM) : outcome VM :=
  let destRegister := Z.land (Z.shiftr instruction 9) 0x7 in
  let pcOffset9 := signExtend (Z.land instruction 0x1fff) 9 in
  pc ← getReg RPc st;
  '(v, st1) ← memRead (wrap16 (pc + pcOffset9)) st;
  st2 ← setReg destRegister v st1;
  updateFlags destRegister st2.

Definition caseOpStore (instruction : Z) (st : VM) : outcome VM :=
  let sourceRegister := Z.land (Z.shiftr instruction 9) 0x7 in
  let pcOffset9 := signExtend (Z.land instruction 0x1fff) 9 in
  address ← getReg (wrap16 (RPc + pcOffset9)) st;
  value ← getReg sourceRegister st;
  memWrite address value st.

Definition caseOpJumpRegister (instruction : Z) (st : VM) : outcome VM :=
  pc ← getReg RPc st;
  st1 ← setReg R7 pc st;
  let bit11Set := Z.land (Z.shiftr instruction 11) 0x1 =? 1 in
  if bit11Set then
    let pcOffset11 := signExtend (Z.land instruction 0x7ff) 11 in
    pc1 ← getReg RPc st1;
    setReg RPc (wrap16 (pc1 + pcOffset11)) st1
  else
    let baseRegister := Z.land (Z.shiftr instruction 6) 0x7 in
    target ← getReg baseRegister st1;
    setReg RPc target st1.

Definition caseOpAnd (instruction : Z) (st : VM) : outcome VM :=
  let destRegister := Z.land (Z.shiftr instruction 9) 0x7 in
  let firstOperand := Z.land (Z.shiftr instruction 6) 0x7 in
  let immFlag := Z.land (Z.shiftr instruction 5) 0x1 in
  st1 ← (if immFlag =? 1 then
           let imm5 := signExtend (Z.land instruction 0x1F) 5 in
           a ← getReg firstOperand st;
           setReg destRegister (Z.land a imm5) st
         else
           let secondOperand := Z.land instruction 0x7 in
           a ← getReg firstOperand st;
           b ← getReg secondOperand st;
           setReg destRegister (Z.land a b) st);
  updateFlags destRegister st1.

Definition caseOpLoadRegister (instruction : Z) (st : VM) : outcome VM :=
  let destRegister := Z.land (Z.shiftr instruction 9) 0x7 in
  let baseRegister := Z.land (Z.shiftr instruction 6) 0x7 in
  let pcOffset6 := signExtend (Z.land instruction 0x3f) 6 in
  base ← getReg baseRegister st;
  '(v, st1) ← memRead (wrap16 (base + pcOffset6)) st;
  st2 ← setReg destRegister v st1;
  updateFlags destRegister st2.

Definition caseOpStoreRegister (instruction : Z) (st : VM) : outcome VM :=
  let sourceRegister := Z.land (Z.shiftr instruction 9) 0x7 in
  let baseRegister := Z.land (Z.shiftr instruction 6) 0x7 in
  let pcOffset6 := signExtend (Z.land instruction 0x3f) 6 in
  base ← getReg baseRegister st;
  value ← getReg sourceRegister st;
  memWrite (wrap16 (base + pcOffset6)) value st.

Definition caseOpNot (instruction : Z) (st : VM) : outcome VM :=
  let destRegister := Z.land (Z.shiftr instruction 9) 0x7 in
  let sourceRegister := Z.land (Z.shiftr instruction 6) 0x7 in
  a ← getReg sourceRegister st;
  st1 ← setReg destRegister (Z.lxor a 0xffff) st;
  updateFlags destRegister st1.

Definition caseOpLoadIndirect (instruction : Z) (st : VM) : outcome VM :=
  let destRegister := Z.land (Z.shiftr instruction 9) 0x7 in
  let pcOffset9 := signExtend (Z.land instruction 0x1fff) 9 in
  pc ← getReg RPc st;
  '(pointer, st1) ← memRead (wrap16 (pc + pcOffset9)) st;
  '(v, st2) ← memRead pointer st1;
  st3 ← setReg destRegister v st2;
  updateFlags destRegister st3.

Definition caseOpStoreIndirect (instruction : Z) (st : VM) : outcome VM :=
  let sourceRegister := Z.land (Z.shiftr instruction 9) 0x7 in
  let pcOffset9 := signExtend (Z.land instruction 0x1fff) 9 in
  pointer ← getReg (wrap16 (RPc + pcOffset9)) st;
  '(address, st1) ← memRead pointer st;
  value ← getReg sourceRegister st1;
  memWrite address value st1.

Definition caseOpJump (instruction : Z) (st : VM) : outcome VM :=
  let dest := Z.land (Z.shiftr instruction 6) 0x7 in
  target ← getReg dest st;
  setReg RPc target st.

Definition caseOpLoadEffectiveAddress (instruction : Z) (st : VM) : outcome VM :=
  let destRegister := Z.land (Z.shiftr instruction 9) 0x7 in
  let pcOffset9 := signExtend (Z.land instruction 0x1fff) 9 in
  pc ← getReg RPc st;
  st1 ← setReg destRegister (wrap16 (pc + pcOffset9)) st;
  updateFlags destRegister st1.

(** ** Trap routines *)

(** The two string loops have no bound of their own in the source.  A pass
    either ends the loop, panics in [memRead], or moves [loc] one cell up,
    so [loopFuel] passes are always enough ([TrapPutS_loop_total],
    [TrapPutSP_loop_total]).  The
    loops return the last value of [loc] with the machine. *)
Definition loopFuel : nat := Z.to_nat 65536.

Fixpoint TrapPutS_loop (fuel : nat) (loc : Z) (st : VM) : outcome (Z * VM) :=
  match fuel with
  | O => OutOfFuel
  | S fuel' =>
      '(char, st1) ← memRead loc st;
      if char =? 0 then Ok (loc, st1)
      else
        let st2 := print (stringOfRune (char mod 256)) st1 in
        TrapPutS_loop fuel' (wrap16 (loc + 1)) st2
  end.

Fixpoint TrapPutSP_loop (fuel : nat) (loc : Z) (st : VM) : outcome (Z * VM) :=
  match fuel with
  | O => OutOfFuel
  | S fuel' =>
      '(read, st1) ← memRead loc st;
      let first := Z.land read 0xff in
      if first =? 0 then Ok (loc, st1)
      else
        let st2 := print (stringOfRune (first mod 256)) st1 in
        let second := Z.shiftr read 8 in
        if second =? 0 then Ok (loc, st2)
        else
          let st3 := print (stringOfRune (second mod 256)) st2 in
          TrapPutSP_loop fuel' (wrap16 (loc + 1)) st3
  end.

Definition caseOpTrap (instruction : Z) (st : VM) : outcome (VM * bool) :=
  let trapCode := Z.land instruction 0xFF in
  if trapCode =? TrapGetC then
    '(c, st1) ← getChar st;
    st2 ← setReg R0 c st1;
    Ok (st2, true)
  else if trapCode =? TrapOut then
    r0 ← getReg R0 st;
    Ok (print (stringOfRune (Z.land r0 0xff)) st, true)
  else if trapCode =? TrapPutS then
    loc ← getReg R0 st;
    '(_, st1) ← TrapPutS_loop loopFuel loc st;
    Ok (st1, true)
  else if trapCode =? TrapIn then
    let st1 := print enterPrompt st in
    '(c, st2) ← getChar st1;
    st3 ← setReg R0 c st2;
    Ok (st3, true)
  else if trapCode =? TrapPutSP then
    loc ← getReg R0 st;
    '(_, st1) ← TrapPutSP_loop loopFuel loc st;
    Ok (st1, true)
  else if trapCode =? TrapHalt then
    Ok (print haltNotice st, false)
  else Ok (st, true).

(** ** The loop of [main] *)

Definition keepRunning (r : outcome VM) : outcome (VM * bool) :=
  st ← r; Ok (st, true).

(** The [switch opCode]: a value that matches no case falls through. *)
Definition execute (instruction : Z) (st : VM) : outcome (VM * bool) :=
  let opCode := Z.shiftr instruction 12 in
  if opCode =? OpBreak then keepRunning (caseOpBreak instruction st)
  else if opCode =? OpAdd then keepRunning (caseOpAdd instruction st)
  else if opCode =? OpLoad then keepRunning (caseOpLoad instruction st)
  else if opCode =? OpStore then keepRunning (caseOpStore instruction st)
  else if opCode =? OpJumpRegister then keepRunning (caseOpJumpRegister instruction st)
  else if opCode =? OpAnd then keepRunning (caseOpAnd instruction st)
  else if opCode =? OpLoadRegister then keepRunning (caseOpLoadRegister instruction st)
  else if opCode =? OpStoreRegister then keepRunning (caseOpStoreRegister instruction st)
  else if opCode =? OpRti then Panic NotImplemented
  else if opCode =? OpNot then keepRunning (caseOpNot instruction st)
  else if opCode =? OpLoadIndirect then keepRunning (caseOpLoadIndirect instruction st)
  else if opCode =? OpStoreIndirect then keepRunning (caseOpStoreIndirect instruction st)
  else if opCode =? OpJump then keepRunning (caseOpJump instruction st)
  else if opCode =? OpRes then Panic NotImplemented
  else if opCode =? OpLoadEffectiveAddress then
    keepRunning (caseOpLoadEffectiveAddress instruction st)
  else if opCode =? OpTrap then caseOpTrap instruction st
  else Ok (st, true).

(** [instruction := memRead(registers[RPc]); registers[RPc]++] *)
Definition fetch (st : VM) : outcome (Z * VM) :=
  pc ← getReg RPc st;
  '(instruction, st1) ← memRead pc st;
  pc1 ← getReg RPc st1;
  st2 ← setReg RPc (wrap16 (pc1 + 1)) st1;
  Ok (instruction, st2).

(** The [select] on [shutdownCh] at the head of a pass: [None] when the
    channel is closed, else the machine one pass closer to the closing. *)
Definition selectShutdown (st : VM) : option VM :=
  match shutdownCh st with
  | Some O => None
  | Some (S n) =>
      Some (mkVM (memory st) (registers st) (reader st) (screen st) (Some n)
                 (printed st))
  | None => Some st
  end.

(** One pass of the loop body after the [select]. *)
Definition cycle (st : VM) : outcome (VM * bool) :=
  '(instruction, st1) ← fetch st;
  execute instruction st1.

Fixpoint run (fuel : nat) (st : VM) : outcome VM :=
  match fuel with
  | O => OutOfFuel
  | S fuel' =>
      match selectShutdown st with
      | None => Ok st
      | Some st0 =>
          '(st1, running) ← cycle st0;
          if (running : bool) then run fuel' st1 else Ok st1
      end
  end.

(** ** Image loader *)

(** A regular file is the list of its bytes still to read.  [file.Read] on
    a two-byte buffer takes what is left, up to two bytes, and reports
    [io.EOF] ([None]) only when nothing is left; a single last byte leaves
    the second byte of the buffer zero. *)
Definition readUint16 (file : list Z) : option Z * list Z :=
  match file with
  | [] => (None, [])
  | [b0] => (Some (Z.lor (Z.shiftl b0 8) 0), [])
  | b0 :: b1 :: rest => (Some (Z.lor (Z.shiftl b0 8) b1), rest)
  end.

(** [for i := origin; i < bound; i++]: [bound] is at most [uint16Max], so
    [uint16Max] passes are enough ([readWords_total]). *)
Fixpoint readWords (fuel : nat) (i bound : Z) (file : list Z) (st : VM)
  : outcome VM :=
  if i <? bound then
    match fuel with
    | O => OutOfFuel
    | S fuel' =>
        match readUint16 file with
        | (None, _) => Ok st
        | (Some val, file') =>
            st' ← setMem i val st;
            readWords fuel' (wrap16 (i + 1)) bound file' st'
        end
    end
  else Ok st.

(** [origin, _ := readUint16(file)]: the error is dropped and [origin] is
    then the zero that [readUint16] returns with it. *)
Definition readImageFile (file : list Z) (st : VM) : outcome VM :=
  let '(r, file1) := readUint16 file in
  let origin := default 0 r in
  readWords (Z.to_nat uint16Max) origin (uint16Max - origin) file1 st.

(** [os.Open] yields the bytes of the file, or fails ([None]). *)
Definition readImage (opened : option (list Z)) (st : VM) : outcome VM :=
  match opened with
  | None => Panic OpenFailed
  | Some file => readImageFile file st
  end.

Definition main (opened : option (list Z)) (input keys : list Z)
    (sd : option nat) (fuel : nat) : outcome VM :=
  st ← readImage opened (initial input keys sd);
  st1 ← setReg RPc PcStart st;
  run fuel st1.

(** ** Equality of outcomes

    Equations between concrete machines are decided by computation. *)

#[global] Instance failure_eq_dec : EqDecision failure.
Proof. solve_decision. Defined.

#[global] Instance outcome_eq_dec {A} `{EqDecision A} : EqDecision (outcome A).
Proof. solve_decision. Defined.

#[global] Instance VM_eq_dec : EqDecision VM.
Proof. solve_decision. Defined.

(** ** Vocabulary of the properties *)

(** [main] up to the start of the loop. *)
Definition loaded (opened : option (list Z)) : outcome VM :=
  st ← readImage opened (initial [] [] None);
  setReg RPc PcStart st.

(** The offset expression shared by the LD, LDI, ST, STI and LEA cases. *)
Definition pcOffset9 (instruction : Z) : Z :=
  signExtend (Z.land instruction 0x1fff) 9.

(** What the claim calls the offset: the low 9 bits, sign extended. *)
Definition signExtendLow9 (instruction : Z) : Z :=
  let low := Z.land instruction 0x1ff in
  if Z.testbit low 8 then Z.lor low 0xFE00 else low.

Definition isByte (b : Z) : Prop := 0 <= b < 256.

(** [xs] is what memory holds from address [a] on. *)
Definition stored (mem : list Z) (a : Z) (xs : list Z) : Prop :=
  ∀ (k : nat) (x : Z), xs !! k = Some x → mem !! (Z.to_nat a + k)%nat = Some x.

(** The characters that PUTS prints for the words [ws]. *)
Definition putsOutput (ws : list Z) : list Z :=
  concat (map (fun w => stringOfRune (w mod 256)) ws).

(** ** Concrete machines and images *)

(** A machine whose keyboard status says that a key is ready. *)
Definition keyReady : VM :=
  withMemory (<[Z.to_nat MrKbsr := Z.shiftl 1 15]> (memory (initial [] [] None)))
             (initial [] [] None).

(** A machine about to fetch [TRAP 0x25] at 0x3000. *)
Definition haltAt3000 : VM :=
  mkVM (<[Z.to_nat 0x3000 := 0xF025]> (replicate (Z.to_nat uint16Max) 0))
       [7; 6; 5; 4; 3; 2; 1; 0; 0x3000; 4] [] [] None [].


(** R0 = 0x4000, and "AB" at 0x4000, followed by 0 and then by 'C'. *)
Definition putsAt4000 : VM :=
  mkVM (<[Z.to_nat 0x4003 := 0x43]>
          (<[Z.to_nat 0x4001 := 0x42]>
             (<[Z.to_nat 0x4000 := 0x41]> (replicate (Z.to_nat uint16Max) 0))))
       [0x4000; 0; 0; 0; 0; 0; 0; 0; 0x3001; 1] [] [] None [].

(** R0 = 0xFDFF, and "AB" at 0xFDFF, followed by 0: the 'B' lies in the
    keyboard status cell.  No key is pending. *)
Definition putsAtFDFF : VM :=
  mkVM (<[Z.to_nat 0xFE00 := 0x42]>
          (<[Z.to_nat 0xFDFF := 0x41]> (replicate (Z.to_nat uint16Max) 0)))
       [0xFDFF; 0; 0; 0; 0; 0; 0; 0; 0x3001; 1] [] [] None [].

(** R0 = 0x4000, and the one word 0xE9 at 0x4000, followed by 0. *)
Definition putsHighByte : VM :=
  mkVM (<[Z.to_nat 0x4000 := 0xE9]> (replicate (Z.to_nat uint16Max) 0))
       [0x4000; 0; 0; 0; 0; 0; 0; 0; 0x3001; 1] [] [] None [].

(** [LD R1, #5; HALT] at 0x3000, with the word 7 at 0x3006. *)
Definition imageLoadR1 : list Z :=
  [0x30; 0x00; 0x22; 0x05; 0xF0; 0x25; 0; 0; 0; 0; 0; 0; 0; 0; 0x00; 0x07].

(** The same with R0 as destination: only bits 11-9 differ. *)
Definition imageLoadR0 : list Z :=
  [0x30; 0x00; 0x20; 0x05; 0xF0; 0x25; 0; 0; 0; 0; 0; 0; 0; 0; 0x00; 0x07].

(** [ADD R0, R0, #5; ST R0, #-1; HALT] at 0x3000. *)
Definition imageStore : list Z :=
  [0x30; 0x00; 0x10; 0x25; 0x31; 0xFF; 0xF0; 0x25].

(** [ADD R0, R0, #5; STI R0, #-1; HALT] at 0x3000. *)
Definition imageStoreIndirect : list Z :=
  [0x30; 0x00; 0x10; 0x25; 0xB1; 0xFF; 0xF0; 0x25].

(** [ADD R0, R0, #5; ST R0, #1; HALT] at 0x3000. *)
Definition imageStoreForward : list Z :=
  [0x30; 0x00; 0x10; 0x25; 0x30; 0x01; 0xF0; 0x25].

(** The image of the specification: origin 0x3000, words 0x1001, 0x1002. *)
Definition imageAt3000 : list Z := [0x30; 0x00; 0x10; 0x01; 0x10; 0x02].

(** The same words with origin 0x8000. *)
Definition imageAt8000 : list Z := [0x80; 0x00; 0x10; 0x01; 0x10; 0x02].


(** ** Vocabulary and machines of the further properties *)

(** The flag that [updateFlags] chooses for the value [v]. *)
Definition flagOf (v : Z) : Z :=
  if v =? 0 then FlagZero
  else if Z.shiftr v 15 =? 1 then FlagNegative
  else FlagPositive.

(** The signed value of an [n]-bit field. *)
Definition signedField (x n : Z) : Z :=
  if x <? 2 ^ (n - 1) then x else x - 2 ^ n.

(** The machine after [registers[d] = v; updateFlags(d)]. *)
Definition withResult (d v : Z) (st : VM) : VM :=
  withRegisters
    (<[Z.to_nat RCond := flagOf v]> (<[Z.to_nat d := v]> (registers st))) st.


(** The characters that PUTSP prints for the words [ws]. *)
Definition putspOutput (ws : list Z) : list Z :=
  concat (map (fun w => stringOfRune (Z.land w 0xff mod 256)
                        ++ stringOfRune (Z.shiftr w 8 mod 256)) ws).


(** A machine about to fetch [RTI] at 0x3000. *)
Definition rtiAt3000 : VM :=
  mkVM (<[Z.to_nat 0x3000 := 0x8000]> (replicate (Z.to_nat uint16Max) 0))
       [7; 6; 5; 4; 3; 2; 1; 0; 0x3000; 4] [] [] None [].

(** R0 = 0x4000, and "Hi!" packed two characters a word at 0x4000. *)
Definition putspAt4000 : VM :=
  mkVM (<[Z.to_nat 0x4001 := 0x0021]>
          (<[Z.to_nat 0x4000 := 0x6948]> (replicate (Z.to_nat uint16Max) 0)))
       [0x4000; 0; 0; 0; 0; 0; 0; 0; 0x3001; 1] [] [] None [].

(** A machine that has fetched an instruction at 0x3000, with the flag
    ZERO in the condition register. *)
Definition flagZeroAt3001 : VM :=
  mkVM (replicate (Z.to_nat uint16Max) 0)
       [7; 6; 5; 4; 3; 2; 1; 0; 0x3001; 2] [] [] None [].

(** A machine about to fetch [LDR R0, R1, #0] at 0x3000, with R1 holding
    the keyboard status address and a stale 0x8000 in the status cell; no
    key is pending at the first poll, the key 'A' at the second. *)
Definition pollAt3000 : VM :=
  mkVM (<[Z.to_nat MrKbsr := 0x8000]>
          (<[Z.to_nat 0x3000 := 0x6040]> (replicate (Z.to_nat uint16Max) 0)))
       [0; 0xFE00; 0; 0; 0; 0; 0; 0; 0x3000; 1] [] [0; 0x41] None [].

(** * Properties *)

#[local] Arguments Z.to_nat : simpl never.
#[local] Arguments Z.of_nat : simpl never.
#[local] Arguments replicate : simpl never.

(** ** Arrays and the outcome monad *)

Section Arrays.
Implicit Types (a : list Z) (i v : Z).

Lemma index_Some a i v : a !! Z.to_nat i = Some v → index a i = Ok v.
Proof. intros H. unfold index. by rewrite H. Qed.

Lemma index_None a i :
  (length a ≤ Z.to_nat i)%nat → index a i = Panic IndexOutOfRange.
Proof. intros H. unfold index. by rewrite lookup_ge_None_2. Qed.

Lemma index_Ok_inv a i v : index a i = Ok v → a !! Z.to_nat i = Some v.
Proof. unfold index. destruct (a !! Z.to_nat i); congruence. Qed.

Lemma assign_lt a i v :
  (Z.to_nat i < length a)%nat → assign a i v = Ok (<[Z.to_nat i := v]> a).
Proof.
  intros H. unfold assign.
  destruct (lookup_lt_is_Some_2 a _ H) as [w ->]. done.
Qed.

Lemma assign_ge a i v :
  (length a ≤ Z.to_nat i)%nat → assign a i v = Panic IndexOutOfRange.
Proof. intros H. unfold assign. by rewrite lookup_ge_None_2. Qed.

Lemma assign_Ok_inv a i v a' :
  assign a i v = Ok a' →
  a' = <[Z.to_nat i := v]> a ∧ (Z.to_nat i < length a)%nat.
Proof.
  unfold assign. destruct (a !! Z.to_nat i) eqn:E; [|congruence].
  intros [= <-]. split; [done|]. by eapply lookup_lt_Some.
Qed.
End Arrays.

Lemma bind_Ok_inv {A B} (m : outcome A) (k : A → outcome B) (b : B) :
  mbind k m = Ok b → ∃ x, m = Ok x ∧ k x = Ok b.
Proof. destruct m; simpl; [eauto|discriminate..]. Qed.

Lemma bind_Ok {A B} (a : A) (k : A → outcome B) : mbind k (Ok a) = k a.
Proof. reflexivity. Qed.

(** Inversion of a successful computation, one bind at a time. *)
Tactic Notation "ok_inv" hyp(H) "as" simple_intropattern(x) ident(Hx) :=
  apply bind_Ok_inv in H as (x & Hx & H).

(** ** Well-formed machines *)

Lemma wf_initial input keys sd : wf (initial input keys sd).
Proof.
  split; unfold initial; cbn [memory registers]; rewrite length_replicate;
    [unfold uint16Max | unfold RCount]; lia.
Qed.

Lemma setMem_Ok address v st :
  (Z.to_nat address < length (memory st))%nat →
  setMem address v st = Ok (withMemory (<[Z.to_nat address := v]> (memory st)) st).
Proof. intros H. unfold setMem. by rewrite assign_lt. Qed.

Lemma setReg_Ok r v st :
  (Z.to_nat r < length (registers st))%nat →
  setReg r v st = Ok (withRegisters (<[Z.to_nat r := v]> (registers st)) st).
Proof. intros H. unfold setReg. by rewrite assign_lt. Qed.

Lemma setMem_Ok_inv address v st st' :
  setMem address v st = Ok st' →
  st' = withMemory (<[Z.to_nat address := v]> (memory st)) st
  ∧ (Z.to_nat address < length (memory st))%nat.
Proof.
  unfold setMem. intros H. ok_inv H as mem Hmem. injection H as <-.
  apply assign_Ok_inv in Hmem as [-> ?]. done.
Qed.

(** What a successful [memRead] leaves alone. *)
Lemma memRead_frame address st v st' :
  memRead address st = Ok (v, st') →
  length (memory st') = length (memory st)
  ∧ registers st' = registers st
  ∧ printed st' = printed st
  ∧ shutdownCh st' = shutdownCh st
  ∧ memory st' !! Z.to_nat address = Some v.
Proof.
  unfold memRead. intros H. ok_inv H as st1 H1. ok_inv H as w Hw.
  injection H as <- <-. apply index_Ok_inv in Hw.
  destruct (address =? MrKbsr).
  - unfold checkKey in H1. destruct (screen st) as [|ch rest].
    + injection H1 as <-. done.
    + destruct (negb (ch =? 0)).
      * ok_inv H1 as st2 H2. apply setMem_Ok_inv in H2 as [-> ?].
        ok_inv H1 as [c st3] H3. apply setMem_Ok_inv in H1 as [-> ?].
        unfold getChar in H3. cbn [reader withMemory] in H3.
        destruct (reader st); [discriminate|]. injection H3 as <- <-.
        cbn in *. rewrite !length_insert in *. done.
      * injection H1 as <-. done.
  - apply setMem_Ok_inv in H1 as [-> ?]. cbn in *.
    rewrite length_insert. done.
Qed.

Lemma memRead_no_fuel address st : memRead address st ≠ OutOfFuel.
Proof.
  unfold memRead, setMem, getMem, index, assign, getChar, checkKey.
  destruct (address =? MrKbsr).
  - destruct (screen st) as [|ch rest]; simpl.
    + destruct (memory st !! Z.to_nat address); simpl; congruence.
    + destruct (negb (ch =? 0)); simpl.
      * destruct (memory st !! Z.to_nat MrKbsr); simpl; [|congruence].
        destruct (reader st); simpl; [congruence|].
        destruct (_ !! Z.to_nat MrKbdr); simpl; [|congruence].
        destruct (_ !! Z.to_nat address); simpl; congruence.
      * destruct (memory st !! Z.to_nat address); simpl; congruence.
  - destruct (memory st !! Z.to_nat MrKbsr); simpl; [|congruence].
    destruct (_ !! Z.to_nat address); simpl; congruence.
Qed.

(** Reading any cell but the keyboard status clears the keyboard status. *)
Lemma memRead_other address st v :
  address ≠ MrKbsr →
  (Z.to_nat MrKbsr < length (memory st))%nat →
  <[Z.to_nat MrKbsr := 0]> (memory st) !! Z.to_nat address = Some v →
  memRead address st
  = Ok (v, withMemory (<[Z.to_nat MrKbsr := 0]> (memory st)) st).
Proof.
  intros Hne Hlen Hv. unfold memRead.
  destruct (Z.eqb_spec address MrKbsr) as [|_]; [done|].
  rewrite setMem_Ok by done. simpl.
  unfold getMem. simpl. rewrite (index_Some _ _ v) by done. done.
Qed.

(** Reading the keyboard status with no key pending returns the cell as it
    is. *)
Lemma memRead_kbsr_idle st st' v :
  checkKey st = (false, st') →
  memory st !! Z.to_nat MrKbsr = Some v →
  memRead MrKbsr st = Ok (v, st').
Proof.
  intros Hk Hv. unfold memRead. rewrite Z.eqb_refl, Hk. simpl.
  assert (memory st' = memory st) as Hm.
  { unfold checkKey in Hk. destruct (screen st); [congruence|].
    injection Hk as _ <-. done. }
  unfold getMem. rewrite Hm, (index_Some _ _ v) by done. done.
Qed.


(** ** Memory size (C3) *)

(** C3.  The claim is that memory has 65536 words and that [memRead] and
    [memWrite] succeed at every 16-bit address.  The array is declared with
    [uint16Max] = 65535 cells, so on every well-formed machine the address
    0xFFFF is out of range for both: reading it and writing it panic. *)
Theorem C3_address_0xFFFF_out_of_range (st : VM) (value : Z) :
  wf st →
  Z.of_nat (length (memory st)) = 65535
  ∧ memRead 0xFFFF st = Panic IndexOutOfRange
  ∧ memWrite 0xFFFF value st = Panic IndexOutOfRange.
Proof.
  intros [Hm _]. unfold uint16Max in Hm. split; [done|]. split.
  - unfold memRead.
    destruct (Z.eqb_spec 0xFFFF MrKbsr) as [E|_]; [discriminate E|].
    rewrite setMem_Ok by (unfold MrKbsr; lia). cbn.
    unfold getMem. cbn [memory withMemory].
    rewrite index_None; [done|]. rewrite length_insert. lia.
  - unfold memWrite, setMem. rewrite assign_ge by lia. done.
Qed.

Lemma C3_address_0xFFFF_out_of_range_witness :
  wf (initial [] [] None)
  ∧ memRead 0xFFFF (initial [] [] None) = Panic IndexOutOfRange.
Proof.
  split; [apply wf_initial|].
  apply (C3_address_0xFFFF_out_of_range (initial [] [] None) 0).
  apply wf_initial.
Defined.

(** Every address below 0xFFFF is in range. *)
Lemma memWrite_in_range (st : VM) (address value : Z) :
  wf st → 0 <= address < 0xFFFF →
  memWrite address value st
  = Ok (withMemory (<[Z.to_nat address := value]> (memory st)) st).
Proof.
  intros [Hm _] Ha. unfold uint16Max in Hm. unfold memWrite.
  apply setMem_Ok. lia.
Qed.

(** ** Keyboard status (C4) *)

(** C4.  The claim is that reading KBSR with no key pending clears the KBSR
    cell, and that reading any other address has no side effect.  In
    [memRead] the [else] that clears the cell belongs to the test
    [address == MrKbsr], not to [checkKey()]: on a well-formed machine with
    no key pending, reading KBSR returns the cell and leaves memory as it
    was, and reading any other address in range sets the KBSR cell to 0. *)
Theorem C4_kbsr_cleared_by_other_reads (st st0 : VM) (address status : Z) :
  wf st →
  checkKey st = (false, st0) →
  memory st !! Z.to_nat MrKbsr = Some status →
  0 <= address < 0xFFFF → address ≠ MrKbsr →
  (memRead MrKbsr st = Ok (status, st0)
   ∧ memory st0 = memory st)
  ∧ ∃ v st',
      memRead address st = Ok (v, st')
      ∧ memory st !! Z.to_nat address = Some v
      ∧ memory st' !! Z.to_nat MrKbsr = Some 0
      ∧ memory st' = <[Z.to_nat MrKbsr := 0]> (memory st).
Proof.
  intros [Hm _] Hs Hk Ha Hne. unfold uint16Max in Hm. split.
  - split; [by apply memRead_kbsr_idle|].
    unfold checkKey in Hs. destruct (screen st); [congruence|].
    injection Hs as _ <-. done.
  - assert (Z.to_nat MrKbsr < length (memory st))%nat as Hlen
      by (unfold MrKbsr; lia).
    assert (Z.to_nat address < length (memory st))%nat as Hlen' by lia.
    destruct (lookup_lt_is_Some_2 _ _ Hlen') as [v Hv].
    exists v, (withMemory (<[Z.to_nat MrKbsr := 0]> (memory st)) st).
    split; [|split; [done|split; [|done]]].
    + apply memRead_other; [done..|].
      rewrite list_lookup_insert_ne; [done|]. unfold MrKbsr in *. lia.
    + cbn. by apply list_lookup_insert_eq.
Qed.

Lemma C4_kbsr_cleared_by_other_reads_witness :
  (memRead MrKbsr keyReady = Ok (0x8000, keyReady)
   ∧ memory keyReady = memory keyReady)
  ∧ ∃ v st',
      memRead 0x3000 keyReady = Ok (v, st')
      ∧ memory keyReady !! Z.to_nat 0x3000 = Some v
      ∧ memory st' !! Z.to_nat MrKbsr = Some 0
      ∧ memory st' = <[Z.to_nat MrKbsr := 0]> (memory keyReady).
Proof.
  apply (C4_kbsr_cleared_by_other_reads keyReady keyReady 0x3000 0x8000).
  - split; vm_compute; reflexivity.
  - reflexivity.
  - vm_compute; reflexivity.
  - lia.
  - unfold MrKbsr; lia.
Defined.

(** ** Condition flags (C7) *)

Lemma shiftr15_testbit (r : Z) :
  0 <= r < 65536 → (Z.shiftr r 15 =? 1) = Z.testbit r 15.
Proof.
  intros Hr. rewrite Z.testbit_odd, Z.shiftr_div_pow2 by lia.
  change (2 ^ 15) with 32768.
  assert (r / 32768 = 0 ∨ r / 32768 = 1) as [-> | ->]; [|done..].
  assert (0 <= r / 32768 < 2); [|lia].
  split; [apply Z.div_pos; lia | apply Z.div_lt_upper_bound; lia].
Qed.

(** C7.  For every 16-bit value [r] of the register passed to
    [updateFlags], the condition register is overwritten with exactly one of
    the three flags, chosen from [r] alone: ZERO (2) when [r] is 0, NEGATIVE
    (4) when [r] is not 0 and its bit 15 is set, POSITIVE (1) otherwise.
    After the call the condition register holds that flag, every other
    register holds what it held, and nothing else in the machine changes. *)
Theorem C7_updateFlags_one_flag (st : VM) (register r : Z) :
  wf st →
  registers st !! Z.to_nat register = Some r →
  0 <= r < 65536 →
  ∃ flag st',
    updateFlags register st = Ok st'
    ∧ st' = withRegisters (<[Z.to_nat RCond := flag]> (registers st)) st
    ∧ registers st' !! Z.to_nat RCond = Some flag
    ∧ (∀ i, i ≠ Z.to_nat RCond → registers st' !! i = registers st !! i)
    ∧ memory st' = memory st
    ∧ printed st' = printed st
    ∧ (r = 0 → flag = 2)
    ∧ (r ≠ 0 → Z.testbit r 15 = true → flag = 4)
    ∧ (r ≠ 0 → Z.testbit r 15 = false → flag = 1)
    ∧ FlagPositive = 1 ∧ FlagZero = 2 ∧ FlagNegative = 4
    ∧ (flag = FlagPositive ∧ flag ≠ FlagZero ∧ flag ≠ FlagNegative
       ∨ flag ≠ FlagPositive ∧ flag = FlagZero ∧ flag ≠ FlagNegative
       ∨ flag ≠ FlagPositive ∧ flag ≠ FlagZero ∧ flag = FlagNegative).
Proof.
  intros [_ Hr] Hreg Hrange. unfold RCount in Hr.
  assert (Z.to_nat RCond < length (registers st))%nat as Hc
    by (unfold RCond; lia).
  assert (∀ flag,
            registers (withRegisters (<[Z.to_nat RCond := flag]> (registers st))
                                     st) !! Z.to_nat RCond = Some flag
            ∧ ∀ i, i ≠ Z.to_nat RCond →
                registers (withRegisters
                             (<[Z.to_nat RCond := flag]> (registers st)) st)
                !! i = registers st !! i) as Hset.
  { intros flag. cbn [registers withRegisters]. split.
    - by apply list_lookup_insert_eq.
    - intros i Hi. by apply list_lookup_insert_ne. }
  unfold updateFlags, getReg. rewrite (index_Some _ _ r) by done.
  cbn [mbind outcome_bind].
  rewrite shiftr15_testbit by done.
  destruct (Z.eqb_spec r 0) as [-> | Hnz].
  - exists FlagZero, (withRegisters (<[Z.to_nat RCond := FlagZero]> (registers st)) st).
    rewrite setReg_Ok by done. destruct (Hset FlagZero) as [H1 H2].
    split_and!; try done. right. left. done.
  - destruct (Z.testbit r 15) eqn:Hb.
    + exists FlagNegative,
        (withRegisters (<[Z.to_nat RCond := FlagNegative]> (registers st)) st).
      rewrite setReg_Ok by done. destruct (Hset FlagNegative) as [H1 H2].
      split_and!; try done. right. right. done.
    + exists FlagPositive,
        (withRegisters (<[Z.to_nat RCond := FlagPositive]> (registers st)) st).
      rewrite setReg_Ok by done. destruct (Hset FlagPositive) as [H1 H2].
      split_and!; try done. left. done.
Qed.

Lemma C7_updateFlags_one_flag_witness :
  ∃ st',
    updateFlags R3 (withRegisters [0; 0; 0; 0x8001; 0; 0; 0; 0; 0x3000; 1]
                                  (initial [] [] None))
    = Ok st'
    ∧ registers st' = [0; 0; 0; 0x8001; 0; 0; 0; 0; 0x3000; 4].
Proof.
  destruct (C7_updateFlags_one_flag
              (withRegisters [0; 0; 0; 0x8001; 0; 0; 0; 0; 0x3000; 1]
                             (initial [] [] None)) R3 0x8001)
    as (flag & st' & Hu & Hst & _ & _ & _ & _ & _ & Hneg & _).
  - split; vm_compute; reflexivity.
  - reflexivity.
  - lia.
  - exists st'. split; [exact Hu|].
    rewrite Hst, (Hneg ltac:(lia) eq_refl). reflexivity.
Defined.

(** ** Traps (C8, C10) *)

Lemma execute_trap (instruction : Z) (st : VM) :
  Z.shiftr instruction 12 = OpTrap →
  execute instruction st = caseOpTrap instruction st.
Proof. intros H. unfold execute. rewrite H. reflexivity. Qed.

(** The fetch changes no register but the program counter, which it
    increments, and writes nothing. *)
Lemma fetch_frame (st : VM) (instruction : Z) (st1 : VM) :
  fetch st = Ok (instruction, st1) →
  ∃ pc,
    registers st !! Z.to_nat RPc = Some pc
    ∧ registers st1 = <[Z.to_nat RPc := wrap16 (pc + 1)]> (registers st)
    ∧ printed st1 = printed st
    ∧ shutdownCh st1 = shutdownCh st.
Proof.
  unfold fetch. intros H.
  ok_inv H as pc Hpc. ok_inv H as [i st'] Hread. ok_inv H as pc1 Hpc1.
  ok_inv H as st2 Hset. injection H as <- <-.
  apply memRead_frame in Hread as (_ & Hregs & Hpr & Hsd & _).
  apply index_Ok_inv in Hpc, Hpc1. rewrite Hregs in Hpc1.
  unfold setReg in Hset. ok_inv Hset as regs Ha. injection Hset as <-.
  apply assign_Ok_inv in Ha as [-> _].
  exists pc. rewrite Hregs. cbn. split_and!; congruence.
Qed.

(** C8.  When a pass of the loop that is not stopped by the interrupt
    fetches a TRAP whose vector is 0x25, the instruction writes the halt
    notice (the four bytes of "halt"), the loop ends with that pass whatever fuel is left (no further
    fetch), and the registers are those left by the fetch: the program
    counter incremented, R0 to R7 and the condition flag as before. *)
Theorem C8_trap_halt_stops_loop (fuel : nat) (st st0 st1 : VM) (instruction : Z) :
  selectShutdown st = Some st0 →
  fetch st0 = Ok (instruction, st1) →
  Z.shiftr instruction 12 = OpTrap →
  Z.land instruction 0xFF = TrapHalt →
  execute instruction st1 = Ok (print haltNotice st1, false)
  ∧ run (S fuel) st = Ok (print haltNotice st1)
  ∧ printed (print haltNotice st1) = printed st ++ [104; 97; 108; 116]
  ∧ registers (print haltNotice st1) = registers st1
  ∧ memory (print haltNotice st1) = memory st1
  ∧ ∃ pc,
      registers st !! Z.to_nat RPc = Some pc
      ∧ registers (print haltNotice st1)
        = <[Z.to_nat RPc := wrap16 (pc + 1)]> (registers st).
Proof.
  intros Hsel Hfetch Hop Hvec.
  assert (execute instruction st1 = Ok (print haltNotice st1, false)) as Hex.
  { rewrite execute_trap by done. unfold caseOpTrap. rewrite Hvec. reflexivity. }
  assert (registers st0 = registers st ∧ printed st0 = printed st) as [Hr0 Hp0].
  { unfold selectShutdown in Hsel.
    destruct (shutdownCh st) as [[|n]|]; [discriminate| |];
      injection Hsel as <-; done. }
  destruct (fetch_frame _ _ _ Hfetch) as (pc & Hpc & Hregs & Hpr & _).
  split_and!; try done.
  - cbn [run]. rewrite Hsel. unfold cycle. rewrite Hfetch.
    cbn [mbind outcome_bind]. rewrite Hex. reflexivity.
  - cbn. unfold haltNotice. congruence.
  - exists pc. cbn. split; congruence.
Qed.

Lemma C8_trap_halt_stops_loop_witness :
  run 5 haltAt3000
  = Ok (mkVM (memory haltAt3000) [7; 6; 5; 4; 3; 2; 1; 0; 0x3001; 4]
             [] [] None [104; 97; 108; 116]).
Proof.
  pose proof (C8_trap_halt_stops_loop 4 haltAt3000 haltAt3000
                (withRegisters [7; 6; 5; 4; 3; 2; 1; 0; 0x3001; 4] haltAt3000)
                0xF025) as H.
  destruct H as (_ & Hrun & _).
  - compute_done.
  - compute_done.
  - compute_done.
  - compute_done.
  - rewrite Hrun. compute_done.
Defined.






(** ** PC-relative offsets (C1) *)

Lemma caseOpLoad_offset (instruction : Z) (st : VM) :
  caseOpLoad instruction st
  = (pc ← getReg RPc st;
     '(v, st1) ← memRead (wrap16 (pc + pcOffset9 instruction)) st;
     st2 ← setReg (Z.land (Z.shiftr instruction 9) 0x7) v st1;
     updateFlags (Z.land (Z.shiftr instruction 9) 0x7) st2).
Proof. reflexivity. Qed.

(** C1.  The claim is that the offset of a 9-bit PC-relative instruction is
    the sign extension of bits 8-0 and does not depend on bits 11-9.  The
    handlers mask the instruction with 0x1fff, which keeps bits 12-9, and
    [signExtend] leaves them in place when bit 8 is clear.  [LD R1, #5]
    (0x2205) gets the offset 0x205 where [LD R0, #5] (0x2005) gets 5: run
    from 0x3000 with 7 stored at 0x3006, the first loads 0 from 0x3206 and
    the second loads 7. *)
Theorem C1_offset_keeps_bits_12_to_9 :
  pcOffset9 0x2205 = 0x205
  ∧ signExtendLow9 0x2205 = 5
  ∧ pcOffset9 0x2005 = 5
  ∧ (main (Some imageLoadR1) [] [] None 2 ≫= getReg R1) = Ok 0
  ∧ (main (Some imageLoadR0) [] [] None 2 ≫= getReg R0) = Ok 7.
Proof. split_and!; vm_compute; reflexivity. Qed.

(** In general: with bit 8 clear the offset is the instruction masked with
    0x1fff, bits 12-9 included. *)
Lemma pcOffset9_bit8_clear (instruction : Z) :
  Z.testbit instruction 8 = false →
  pcOffset9 instruction = Z.land instruction 0x1fff.
Proof.
  intros Hb. unfold pcOffset9, signExtend.
  change (9 - 1) with 8. change 1 with (Z.ones 1) at 1.
  rewrite Z.land_ones by lia.
  rewrite <- Z.bit0_eqb, Z.shiftr_spec, Z.land_spec by lia.
  change (0 + 8) with 8. rewrite Hb. reflexivity.
Qed.

(** With bit 8 set the mask of [signExtend] covers bits 15-9 and the offset
    is the intended one. *)
Example pcOffset9_negative :
  pcOffset9 0x23FF = 0xFFFF ∧ signExtendLow9 0x23FF = 0xFFFF.
Proof. split; reflexivity. Qed.

(** ** Stores (C2) *)

(** C2.  The claim is that ST writes to PC + offset and STI to the address
    read from PC + offset, never indexing the register file with the
    computed address.  Both cases evaluate [registers[RPc+pcOffset9]]: the
    register file is indexed with 8 + offset.  With offset -1 that is R7,
    here 0, so [ST R0, #-1] writes 5 to memory[0] and leaves memory[0x3001]
    (PC - 1) as loaded, and [STI R0, #-1] writes 5 to memory[memory[0]];
    with offset 1 the index is beyond the register file and the machine
    panics. *)
Theorem C2_store_indexes_register_file :
  (main (Some imageStore) [] [] None 3 ≫= getMem 0) = Ok 5
  ∧ (main (Some imageStore) [] [] None 3 ≫= getMem 0x3001) = Ok 0x31FF
  ∧ (main (Some imageStoreIndirect) [] [] None 3 ≫= getMem 0) = Ok 5
  ∧ (main (Some imageStoreIndirect) [] [] None 3 ≫= getMem 0xB1FF) = Ok 0
  ∧ main (Some imageStoreForward) [] [] None 3 = Panic IndexOutOfRange.
Proof. split_and!; vm_compute; reflexivity. Qed.

(** ** Image loader (C5, C6) *)

Example readImage_at_3000 :
  (loaded (Some imageAt3000) ≫= getMem 0x3000) = Ok 0x1001
  ∧ (loaded (Some imageAt3000) ≫= getMem 0x3001) = Ok 0x1002
  ∧ (loaded (Some imageAt3000) ≫= getReg RPc) = Ok 0x3000.
Proof. split_and!; vm_compute; reflexivity. Qed.

(** C5.  The claim is that every image is stored word by word from its
    origin until the stream ends.  The loop of [readImageFile] runs [i]
    from [origin] while [i < uint16Max - origin], so the bound is an
    address, not a count: with origin 0x8000 it is 0x7FFF and no word is
    stored.  The image with origin 0x8000 and words 0x1001, 0x1002 leaves
    memory[0x8000] and memory[0x8001] zero, and the whole machine as it
    was. *)
Theorem C5_origin_0x8000_loads_nothing :
  (loaded (Some imageAt8000) ≫= getMem 0x8000) = Ok 0
  ∧ (loaded (Some imageAt8000) ≫= getMem 0x8001) = Ok 0
  ∧ readImage (Some imageAt8000) (initial [] [] None)
    = Ok (initial [] [] None).
Proof. split_and!; [vm_compute; reflexivity..|compute_done]. Qed.

Lemma bigEndian_range (b0 b1 : Z) :
  isByte b0 → isByte b1 → 0 <= Z.lor (Z.shiftl b0 8) b1 < 65536.
Proof.
  unfold isByte. intros H0 H1. rewrite Z.shiftl_mul_pow2 by lia.
  change (2 ^ 8) with 256.
  pose proof (Z.add_lor_land (b0 * 256) b1) as Hadd.
  assert (0 <= Z.land (b0 * 256) b1) by (apply Z.land_nonneg; lia).
  assert (0 <= Z.lor (b0 * 256) b1) by (apply Z.lor_nonneg; lia).
  lia.
Qed.

Lemma readUint16_range (file : list Z) (v : Z) (file' : list Z) :
  Forall isByte file →
  readUint16 file = (Some v, file') →
  0 <= v < 65536 ∧ Forall isByte file'.
Proof.
  intros Hb. unfold readUint16.
  destruct file as [|b0 [|b1 rest]]; [discriminate| |]; intros [= <- <-].
  - apply Forall_cons in Hb as [H0 _]. split; [|constructor].
    apply bigEndian_range; [done|]. unfold isByte. lia.
  - apply Forall_cons in Hb as [H0 Hb]. apply Forall_cons in Hb as [H1 Hb].
    split; [|done]. by apply bigEndian_range.
Qed.

Lemma readWords_unfold (fuel : nat) (i bound : Z) (file : list Z) (st : VM) :
  readWords fuel i bound file st
  = if i <? bound then
      match fuel with
      | O => OutOfFuel
      | S fuel' =>
          match readUint16 file with
          | (None, _) => Ok st
          | (Some val, file') =>
              st' ← setMem i val st;
              readWords fuel' (wrap16 (i + 1)) bound file' st'
          end
      end
    else Ok st.
Proof. destruct fuel; reflexivity. Qed.

(** The loop of the loader always ends, without a panic, and touches only
    memory. *)
Lemma readWords_total (fuel : nat) :
  ∀ (i bound : Z) (file : list Z) (st : VM),
    Z.of_nat (length (memory st)) = uint16Max →
    0 <= i → bound <= uint16Max → bound - i <= Z.of_nat fuel →
    ∃ st',
      readWords fuel i bound file st = Ok st'
      ∧ length (memory st') = length (memory st)
      ∧ registers st' = registers st.
Proof.
  unfold uint16Max.
  induction fuel as [|fuel IH]; intros i bound file st Hm Hi Hb Hf;
    rewrite readWords_unfold; destruct (Z.ltb_spec i bound) as [Hlt|Hge];
    try (by exists st); [lia|].
  destruct (readUint16 file) as [[val|] file']; [|by exists st].
  rewrite setMem_Ok by lia. cbn [mbind outcome_bind].
  assert (wrap16 (i + 1) = i + 1) as ->
    by (unfold wrap16; apply Z.mod_small; lia).
  destruct (IH (i + 1) bound file'
              (withMemory (<[Z.to_nat i := val]> (memory st)) st))
    as (st' & Hrun & Hlen & Hregs); cbn [memory withMemory];
    rewrite ?length_insert; try lia.
  exists st'. split; [done|]. cbn in Hlen, Hregs.
  rewrite length_insert in Hlen. done.
Qed.

(** A stream that opens is always loaded without a failure. *)
Lemma readImageFile_total (file : list Z) (st : VM) :
  wf st → Forall isByte file →
  ∃ st', readImageFile file st = Ok st' ∧ wf st'.
Proof.
  intros [Hm Hr] Hb. unfold readImageFile.
  destruct (readUint16 file) as [r file1] eqn:Hread.
  assert (0 <= default 0 r < 65536) as Ho.
  { destruct r as [v|]; [|cbn; lia].
    by apply (readUint16_range file v file1). }
  destruct (readWords_total (Z.to_nat uint16Max) (default 0 r)
              (uint16Max - default 0 r) file1 st)
    as (st' & Hrun & Hlen & Hregs); unfold uint16Max in *; try lia.
  exists st'. split; [done|]. split; unfold uint16Max; congruence.
Qed.

(** C6, as the code has it.  Loading fails, with a panic, exactly when the
    stream cannot be opened, and then [main] ends before the first fetch.
    A stream that opens is always loaded without a failure: when the origin
    cannot be read (the empty stream) the error is dropped and the machine
    is left as it was; a stream that ends in the middle of a word, one byte
    after any number of whole words, is loaded without a failure too. *)
Theorem C6_loading_fails_only_on_open (st : VM) (file : list Z) (b : Z) :
  wf st → Forall isByte file → isByte b →
  readImage None st = Panic OpenFailed
  ∧ (∀ input keys sd fuel, main None input keys sd fuel = Panic OpenFailed)
  ∧ (∃ st', readImage (Some file) st = Ok st' ∧ wf st')
  ∧ (∃ st', readImage (Some (file ++ [b])) st = Ok st' ∧ wf st')
  ∧ readImage (Some []) st = Ok st.
Proof.
  intros Hwf Hb Hlast. split_and!; [done|done| | |].
  - by apply readImageFile_total.
  - apply readImageFile_total; [done|].
    apply Forall_app. split; [done|]. by constructor.
  - unfold readImage, readImageFile. cbn [readUint16 default].
    rewrite readWords_unfold. 
    destruct (Z.ltb_spec 0 (uint16Max - 0)) as [_|H];
      [|unfold uint16Max in H; lia].
    change (Z.to_nat uint16Max) with (S (Z.to_nat 65534)). reflexivity.
Qed.

Lemma C6_loading_fails_only_on_open_witness :
  main None [] [] None 1 = Panic OpenFailed
  ∧ (∃ st', readImage (Some ([0x30; 0x00; 0x10; 0x01] ++ [0x10]))
                      (initial [] [] None) = Ok st'
            ∧ wf st')
  ∧ readImage (Some []) (initial [] [] None) = Ok (initial [] [] None).
Proof.
  destruct (C6_loading_fails_only_on_open (initial [] [] None)
              [0x30; 0x00; 0x10; 0x01] 0x10)
    as (_ & Hmain & _ & Hodd & Hempty).
  - apply wf_initial.
  - unfold isByte. repeat constructor; lia.
  - unfold isByte. lia.
  - split_and!; [apply Hmain|exact Hodd|exact Hempty].
Defined.

(** The claim of C6 fails on the empty stream: the origin cannot be read,
    yet loading succeeds, and the first pass of the loop executes the word
    0 found at 0x3000 and moves on to 0x3001. *)
Lemma C6_counterexample_empty_stream :
  readImage (Some []) (initial [] [] None) = Ok (initial [] [] None)
  ∧ (loaded (Some []) ≫= getReg RPc) = Ok 0x3000
  ∧ (st ← loaded (Some []); '(st1, _) ← cycle st; getReg RPc st1) = Ok 0x3001
  ∧ main (Some []) [] [] None 8 = OutOfFuel.
Proof. split_and!; [compute_done|vm_compute; reflexivity..]. Qed.

(** ** PUTS (C9) *)

Lemma loopFuel_eq : Z.of_nat loopFuel = 65536.
Proof. unfold loopFuel. apply Z2Nat.id. lia. Qed.

(** The two string loops end within [loopFuel] passes. *)
Lemma TrapPutS_loop_total_aux (fuel : nat) :
  ∀ (loc : Z) (st : VM),
    Z.of_nat (length (memory st)) <= uint16Max →
    0 <= loc <= 65535 → 65536 - loc <= Z.of_nat fuel →
    TrapPutS_loop fuel loc st ≠ OutOfFuel.
Proof.
  unfold uint16Max.
  induction fuel as [|fuel IH]; intros loc st Hm Hl Hf; [lia|].
  cbn [TrapPutS_loop].
  destruct (memRead loc st) as [[char st1]| |] eqn:Hread;
    [|done|by apply memRead_no_fuel in Hread].
  cbn [mbind outcome_bind]. destruct (char =? 0); [done|].
  apply memRead_frame in Hread as (Hlen & _ & _ & _ & Hv).
  apply lookup_lt_Some in Hv.
  assert (wrap16 (loc + 1) = loc + 1) as ->
    by (unfold wrap16; apply Z.mod_small; lia).
  apply IH; cbn [memory print withPrinted]; lia.
Qed.

Lemma TrapPutS_loop_total (loc : Z) (st : VM) :
  wf st → 0 <= loc <= 65535 → TrapPutS_loop loopFuel loc st ≠ OutOfFuel.
Proof.
  intros [Hm _] Hl. pose proof loopFuel_eq.
  apply TrapPutS_loop_total_aux; lia.
Qed.

Lemma TrapPutSP_loop_total_aux (fuel : nat) :
  ∀ (loc : Z) (st : VM),
    Z.of_nat (length (memory st)) <= uint16Max →
    0 <= loc <= 65535 → 65536 - loc <= Z.of_nat fuel →
    TrapPutSP_loop fuel loc st ≠ OutOfFuel.
Proof.
  unfold uint16Max.
  induction fuel as [|fuel IH]; intros loc st Hm Hl Hf; [lia|].
  cbn [TrapPutSP_loop].
  destruct (memRead loc st) as [[read st1]| |] eqn:Hread;
    [|done|by apply memRead_no_fuel in Hread].
  cbn [mbind outcome_bind].
  destruct (Z.land read 255 =? 0); [done|].
  destruct (Z.shiftr read 8 =? 0); [done|].
  apply memRead_frame in Hread as (Hlen & _ & _ & _ & Hv).
  apply lookup_lt_Some in Hv.
  assert (wrap16 (loc + 1) = loc + 1) as ->
    by (unfold wrap16; apply Z.mod_small; lia).
  apply IH; cbn [memory print withPrinted]; lia.
Qed.

Lemma TrapPutSP_loop_total (loc : Z) (st : VM) :
  wf st → 0 <= loc <= 65535 → TrapPutSP_loop loopFuel loc st ≠ OutOfFuel.
Proof.
  intros [Hm _] Hl. pose proof loopFuel_eq.
  apply TrapPutSP_loop_total_aux; lia.
Qed.

Lemma stored_take_drop (mem : list Z) (a : Z) (xs : list Z) :
  take (length xs) (drop (Z.to_nat a) mem) = xs → stored mem a xs.
Proof.
  intros H k x Hk. rewrite <- H in Hk.
  apply lookup_take_Some in Hk as [Hk _]. by rewrite lookup_drop in Hk.
Qed.

Lemma stored_cons (mem : list Z) (a x : Z) (xs : list Z) :
  0 <= a → stored mem a (x :: xs) →
  mem !! Z.to_nat a = Some x ∧ stored mem (a + 1) xs.
Proof.
  intros Ha H. split.
  - specialize (H 0%nat x eq_refl). by rewrite Nat.add_0_r in H.
  - intros k y Hk. specialize (H (S k) y Hk).
    replace (Z.to_nat (a + 1) + k)%nat with (Z.to_nat a + S k)%nat by lia.
    done.
Qed.

Lemma memRead_clears_kbsr (address : Z) (st : VM) (v : Z) :
  address ≠ MrKbsr →
  (Z.to_nat MrKbsr < length (memory st))%nat →
  memory st !! Z.to_nat address = Some v →
  memRead address st
  = Ok (v, withMemory (<[Z.to_nat MrKbsr := 0]> (memory st)) st).
Proof.
  intros Hne Hlen Hv. apply memRead_other; [done..|].
  rewrite list_lookup_insert_ne; [done|].
  apply lookup_lt_Some in Hv. unfold MrKbsr in *. lia.
Qed.

(** The loop of PUTS on a string that lies in memory clear of the keyboard
    status cell: it prints the low byte of each word as a character, stops
    on the zero word, and leaves the keyboard status cleared. *)
Lemma TrapPutS_loop_string (ws : list Z) :
  ∀ (a : Z) (st : VM) (fuel : nat),
    0 <= a → a + Z.of_nat (length ws) < 65536 →
    Forall (fun w => w ≠ 0) ws →
    stored (memory st) a (ws ++ [0]) →
    a + Z.of_nat (length ws) < MrKbsr ∨ MrKbsr < a →
    (Z.to_nat MrKbsr < length (memory st))%nat →
    (length ws < fuel)%nat →
    TrapPutS_loop fuel a st
    = Ok (a + Z.of_nat (length ws),
          mkVM (<[Z.to_nat MrKbsr := 0]> (memory st)) (registers st)
               (reader st) (screen st) (shutdownCh st)
               (printed st ++ putsOutput ws)).
Proof.
  induction ws as [|w ws IH]; intros a st fuel Ha Hend Hnz Hst Hk Hlen Hf;
    (destruct fuel as [|fuel]; [cbn in Hf; lia|]); cbn [TrapPutS_loop];
    apply stored_cons in Hst as [Hhd Htl]; try done;
    cbn [length] in *.
  - rewrite (memRead_clears_kbsr a st 0); [|unfold MrKbsr in *; lia|done..].
    cbn [mbind outcome_bind]. rewrite Z.eqb_refl.
    unfold putsOutput. cbn [map concat].
    rewrite app_nil_r, Z.add_0_r. reflexivity.
  - rewrite (memRead_clears_kbsr a st w); [|unfold MrKbsr in *; lia|done..].
    cbn [mbind outcome_bind].
    apply Forall_cons in Hnz as [Hw Hnz].
    destruct (Z.eqb_spec w 0) as [|_]; [done|].
    assert (wrap16 (a + 1) = a + 1) as ->
      by (unfold wrap16; apply Z.mod_small; lia).
    rewrite IH; try done;
      cbn [memory registers reader screen shutdownCh printed print
           withPrinted withMemory];
      rewrite ?length_insert; try lia.
    + rewrite list_insert_insert_eq. unfold putsOutput. cbn [map concat].
      rewrite <- app_assoc.
      replace (a + 1 + Z.of_nat (length ws))
        with (a + Z.of_nat (S (length ws))) by lia.
      reflexivity.
    + intros k x Hx. specialize (Htl k x Hx).
      apply lookup_lt_Some in Hx. rewrite length_app in Hx. cbn in Hx.
      rewrite list_lookup_insert_ne; [done|]. unfold MrKbsr in *. lia.
Qed.

Lemma putsOutput_ascii (ws : list Z) :
  Forall (fun w => w mod 256 < 0x80) ws →
  putsOutput ws = map (fun w => w mod 256) ws.
Proof.
  unfold putsOutput. induction 1 as [|w ws Hw _ IH]; [done|].
  cbn [map concat]. rewrite IH. unfold stringOfRune.
  destruct (Z.ltb_spec (w mod 256) 128); [done|lia].
Qed.

Lemma caseOpTrap_puts (instruction : Z) (st : VM) :
  Z.land instruction 0xFF = TrapPutS →
  caseOpTrap instruction st
  = (loc ← getReg R0 st;
     '(_, st1) ← TrapPutS_loop loopFuel loc st;
     Ok (st1, true)).
Proof. intros H. unfold caseOpTrap. rewrite H. reflexivity. Qed.

Lemma TrapPutS_loop_region (st : VM) (a : Z) (ws : list Z) :
  wf st →
  0 <= a →
  take (S (length ws)) (drop (Z.to_nat a) (memory st)) = ws ++ [0] →
  Forall (fun w => w ≠ 0) ws →
  a + Z.of_nat (length ws) < MrKbsr ∨ MrKbsr < a →
  TrapPutS_loop loopFuel a st
  = Ok (a + Z.of_nat (length ws),
        mkVM (<[Z.to_nat MrKbsr := 0]> (memory st)) (registers st)
             (reader st) (screen st) (shutdownCh st)
             (printed st ++ putsOutput ws)).
Proof.
  intros [Hm _] Ha Hmem Hnz Hk. unfold uint16Max in Hm.
  assert (Z.to_nat a + S (length ws) <= length (memory st))%nat as Hin.
  { apply (f_equal length) in Hmem.
    rewrite length_take, length_drop, length_app in Hmem.
    cbn [length] in Hmem. lia. }
  pose proof loopFuel_eq as Hfuel.
  apply TrapPutS_loop_string.
  - done.
  - lia.
  - done.
  - apply stored_take_drop. rewrite length_app. cbn [length].
    by rewrite Nat.add_1_r.
  - done.
  - unfold MrKbsr. lia.
  - lia.
Qed.

Lemma stringOfRune_byte (b : Z) :
  0 <= b < 256 →
  stringOfRune b
  = if b <? 0x80 then [b]
    else [Z.lor 0xC0 (Z.shiftr b 6); Z.lor 0x80 (Z.land b 0x3F)].
Proof.
  intros Hb. unfold stringOfRune. destruct (b <? 0x80); [done|].
  destruct (Z.ltb_spec b 0x800); [done|lia].
Qed.

Lemma putsOutput_bytes (ws : list Z) :
  putsOutput ws
  = concat (map (fun w =>
                   let b := w mod 256 in
                   if b <? 0x80 then [b]
                   else [Z.lor 0xC0 (Z.shiftr b 6); Z.lor 0x80 (Z.land b 0x3F)])
                ws).
Proof.
  unfold putsOutput. induction ws as [|w ws IH]; [done|].
  cbn [map concat]. rewrite IH, stringOfRune_byte; [done|].
  apply Z.mod_pos_bound. lia.
Qed.

(** C9, as the code has it.  Let R0 hold [a], let memory from [a] on hold
    the nonzero words [ws] followed by a zero word, all inside the memory
    array, and let the keyboard status cell lie outside [a, a + |ws|].
    Then TRAP 0x22 prints, for each word of [ws] in order, the character
    whose code is the low byte [b] of the word, in UTF-8: the byte [b]
    itself when it is below 0x80, the two bytes [0xC0 | b >> 6] and
    [0x80 | b & 0x3F] otherwise; it prints nothing for the zero word, and
    keeps the loop running.  The loop ends with [loc] at [a + |ws|], the
    address of the zero word, so no cell beyond it is read; the machine is
    otherwise unchanged but for the keyboard status cell, which the reads
    clear.  Nothing is assumed about memory outside the string. *)
Theorem C9_puts_prints_until_zero (st : VM) (instruction a : Z) (ws : list Z) :
  wf st →
  Z.shiftr instruction 12 = OpTrap →
  Z.land instruction 0xFF = TrapPutS →
  registers st !! Z.to_nat R0 = Some a →
  0 <= a →
  take (S (length ws)) (drop (Z.to_nat a) (memory st)) = ws ++ [0] →
  Forall (fun w => w ≠ 0) ws →
  a + Z.of_nat (length ws) < MrKbsr ∨ MrKbsr < a →
  let st' := mkVM (<[Z.to_nat MrKbsr := 0]> (memory st)) (registers st)
                  (reader st) (screen st) (shutdownCh st)
                  (printed st ++ putsOutput ws) in
  execute instruction st = Ok (st', true)
  ∧ TrapPutS_loop loopFuel a st = Ok (a + Z.of_nat (length ws), st')
  ∧ printed st'
    = printed st
      ++ concat (map (fun w =>
                        let b := w mod 256 in
                        if b <? 0x80 then [b]
                        else [Z.lor 0xC0 (Z.shiftr b 6);
                              Z.lor 0x80 (Z.land b 0x3F)])
                     ws)
  ∧ (Forall (fun w => w mod 256 < 0x80) ws →
     printed st' = printed st ++ map (fun w => w mod 256) ws).
Proof.
  intros Hwf Hop Hvec Hr0 Ha Hmem Hnz Hk st'.
  pose proof (TrapPutS_loop_region st a ws Hwf Ha Hmem Hnz Hk) as Hloop.
  split_and!; [|exact Hloop| |].
  - rewrite execute_trap, caseOpTrap_puts by done.
    unfold getReg. rewrite (index_Some _ _ a) by done.
    rewrite bind_Ok, Hloop, bind_Ok. reflexivity.
  - subst st'. cbn [printed]. by rewrite putsOutput_bytes.
  - intros Hascii. subst st'. cbn [printed]. by rewrite putsOutput_ascii.
Qed.

Lemma C9_puts_prints_until_zero_witness :
  ∃ st',
    execute 0xF022 putsAt4000 = Ok (st', true)
    ∧ printed st' = [0x41; 0x42]
    ∧ TrapPutS_loop loopFuel 0x4000 putsAt4000 = Ok (0x4002, st').
Proof.
  destruct (C9_puts_prints_until_zero putsAt4000 0xF022 0x4000 [0x41; 0x42])
    as (Hex & Hloop & _).
  - split; vm_compute; reflexivity.
  - reflexivity.
  - reflexivity.
  - reflexivity.
  - lia.
  - vm_compute. reflexivity.
  - repeat constructor; lia.
  - left. unfold MrKbsr. cbn. lia.
  - eexists. split; [exact Hex|]. split; [reflexivity|exact Hloop].
Defined.

(** The claim of C9 fails in two ways.  For a string that runs over the
    keyboard status cell: memory holds 0x41, 0x42, 0 at R0's address
    0xFDFF, and PUTS prints the 'A' only.  For a low byte from 0x80 on:
    memory holds 0xE9, 0 at R0's address, and PUTS prints not the byte
    0xE9 but the two bytes 0xC3, 0xA9. *)
Lemma C9_counterexample_kbsr_and_high_byte :
  (getReg R0 putsAtFDFF = Ok 0xFDFF
   ∧ take 3 (drop (Z.to_nat 0xFDFF) (memory putsAtFDFF)) = [0x41; 0x42; 0]
   ∧ ('(st', _) ← execute 0xF022 putsAtFDFF; Ok (printed st')) = Ok [0x41])
  ∧ (getReg R0 putsHighByte = Ok 0x4000
     ∧ take 2 (drop (Z.to_nat 0x4000) (memory putsHighByte)) = [0xE9; 0]
     ∧ ('(st', _) ← execute 0xF022 putsHighByte; Ok (printed st'))
       = Ok [0xC3; 0xA9]).
Proof. split_and!; vm_compute; reflexivity. Qed.

(** * Further properties of the code *)

(** ** Sign extension *)

Lemma land_shiftl_small (num k n : Z) :
  0 <= n → 0 <= num < 2 ^ n → Z.land num (Z.shiftl k n) = 0.
Proof.
  intros Hn Hnum. apply Z.bits_inj'. intros i Hi.
  rewrite Z.land_spec, Z.bits_0.
  destruct (Z.lt_ge_cases i n) as [Hlt|Hge].
  - rewrite Z.shiftl_spec_low by done. apply andb_false_r.
  - assert (Z.testbit num i = false) as ->; [|done].
    destruct (Z.eq_dec num 0) as [->|Hnz]; [apply Z.bits_0|].
    apply Z.bits_above_log2; [lia|].
    apply Z.log2_lt_pow2; [lia|].
    assert (2 ^ n <= 2 ^ i) by (apply Z.pow_le_mono_r; lia). lia.
Qed.

Lemma signExtend_mask (n : Z) :
  0 <= n <= 16 → wrap16 (Z.shiftl 0xffff n) = 65536 - 2 ^ n.
Proof.
  intros Hn. unfold wrap16. rewrite Z.shiftl_mul_pow2 by lia.
  assert (0 < 2 ^ n) by (apply Z.pow_pos_nonneg; lia).
  assert (2 ^ n <= 2 ^ 16) by (apply Z.pow_le_mono_r; lia).
  change (2 ^ 16) with 65536 in *.
  symmetry. apply (Z.mod_unique _ _ (2 ^ n - 1)); lia.
Qed.

Lemma signExtend_test (num n : Z) :
  1 <= n → 0 <= num < 2 ^ n →
  (Z.land (Z.shiftr num (n - 1)) 1 =? 1) = negb (num <? 2 ^ (n - 1)).
Proof.
  intros Hn Hnum. rewrite Z.shiftr_div_pow2 by lia.
  assert (0 < 2 ^ (n - 1)) as Hp by (apply Z.pow_pos_nonneg; lia).
  assert (2 ^ n = 2 * 2 ^ (n - 1)) as Hd.
  { replace n with (Z.succ (n - 1)) at 1 by lia. apply Z.pow_succ_r. lia. }
  destruct (Z.ltb_spec num (2 ^ (n - 1))) as [Hlt|Hge].
  - rewrite Z.div_small by lia. reflexivity.
  - assert (num / 2 ^ (n - 1) = 1) as ->; [|reflexivity].
    symmetry. apply (Z.div_unique _ _ _ (num - 2 ^ (n - 1))); lia.
Qed.

Lemma signExtend_value (num n : Z) :
  1 <= n <= 16 → 0 <= num < 2 ^ n →
  signExtend num n = wrap16 (signedField num n)
  ∧ 0 <= signExtend num n < 65536.
Proof.
  unfold signedField.
  intros Hn Hnum.
  assert (0 < 2 ^ (n - 1)) as Hp by (apply Z.pow_pos_nonneg; lia).
  assert (2 ^ n = 2 * 2 ^ (n - 1)) as Hd.
  { replace n with (Z.succ (n - 1)) at 1 by lia. apply Z.pow_succ_r. lia. }
  assert (2 ^ n <= 2 ^ 16) as H16 by (apply Z.pow_le_mono_r; lia).
  change (2 ^ 16) with 65536 in H16.
  unfold signExtend. rewrite signExtend_test by lia.
  destruct (Z.ltb_spec num (2 ^ (n - 1))) as [Hlt|Hge]; cbn [negb].
  - unfold wrap16. rewrite Z.mod_small by lia. lia.
  - rewrite signExtend_mask by lia.
    assert (Z.lor num (65536 - 2 ^ n) = num + (65536 - 2 ^ n)) as ->.
    { pose proof (Z.add_lor_land num (65536 - 2 ^ n)) as Hadd.
      replace (65536 - 2 ^ n) with (Z.shiftl (2 ^ (16 - n) - 1) n) in Hadd at 2.
      - rewrite land_shiftl_small in Hadd by lia. lia.
      - rewrite Z.shiftl_mul_pow2 by lia.
        rewrite Z.mul_sub_distr_r, <- Z.pow_add_r by lia.
        replace (16 - n + n) with 16 by lia. lia. }
    unfold wrap16. split; [|lia].
    apply (Z.mod_unique _ _ (-1)); lia.
Qed.

(** [signExtend] of an [n]-bit field, for every width from 1 to 16, is the
    16-bit two's complement word of the signed value of the field: the
    field itself when its top bit is clear, the field minus [2^n], wrapped
    to 16 bits, when it is set. *)
Theorem signExtend_twos_complement (num n : Z) :
  1 <= n <= 16 → 0 <= num < 2 ^ n →
  signExtend num n
  = wrap16 (if num <? 2 ^ (n - 1) then num else num - 2 ^ n)
  ∧ 0 <= signExtend num n < 65536.
Proof. exact (signExtend_value num n). Qed.

Lemma signExtend_twos_complement_witness :
  signExtend 0x1F 5 = wrap16 (if 0x1F <? 2 ^ (5 - 1) then 0x1F else 0x1F - 2 ^ 5)
  ∧ 0 <= signExtend 0x1F 5 < 65536.
Proof.
  apply (signExtend_twos_complement 0x1F 5); [lia|].
  change (2 ^ 5) with 32. lia.
Defined.

(** ** Arithmetic and logic instructions *)

Lemma field_3_bits (x : Z) : 0 <= Z.land x 0x7 < 8.
Proof.
  change 7 with (Z.ones 3). rewrite Z.land_ones by lia.
  change (2 ^ 3) with 8. apply Z.mod_pos_bound. lia.
Qed.

Lemma getReg_Ok (r : Z) (st : VM) :
  wf st → 0 <= r < RCount →
  ∃ v, registers st !! Z.to_nat r = Some v ∧ getReg r st = Ok v.
Proof.
  intros [_ Hr] Hi.
  destruct (lookup_lt_is_Some_2 (registers st) (Z.to_nat r)) as [v Hv]; [lia|].
  exists v. split; [done|]. by apply index_Some.
Qed.

Lemma updateFlags_flagOf (r v : Z) (st : VM) :
  wf st → registers st !! Z.to_nat r = Some v →
  updateFlags r st
  = Ok (withRegisters (<[Z.to_nat RCond := flagOf v]> (registers st)) st).
Proof.
  intros [_ Hr] Hv. unfold RCount in Hr.
  unfold updateFlags, getReg. rewrite (index_Some _ _ v), bind_Ok by done.
  unfold flagOf.
  destruct (v =? 0); [|destruct (Z.shiftr v 15 =? 1)];
    apply setReg_Ok; unfold RCond; lia.
Qed.

Lemma wf_withRegisters (regs : list Z) (st : VM) :
  wf st → length regs = length (registers st) → wf (withRegisters regs st).
Proof. intros [Hm Hr] Hl. split; cbn; congruence. Qed.

(** [registers[d] = v; updateFlags(d)] for a register field [d]. *)
Lemma setReg_updateFlags (d v : Z) (st : VM) :
  wf st → 0 <= d < RCount →
  (st1 ← setReg d v st; updateFlags d st1) = Ok (withResult d v st).
Proof.
  intros Hwf Hd. pose proof Hwf as [_ Hr]. unfold RCount in *.
  rewrite setReg_Ok, bind_Ok by lia.
  rewrite (updateFlags_flagOf d v).
  - reflexivity.
  - apply wf_withRegisters; [done|]. by rewrite length_insert.
  - cbn. apply list_lookup_insert_eq. lia.
Qed.

Lemma flagOf_one_flag (v : Z) :
  flagOf v = FlagPositive ∨ flagOf v = FlagZero ∨ flagOf v = FlagNegative.
Proof.
  unfold flagOf. destruct (v =? 0); [|destruct (Z.shiftr v 15 =? 1)]; auto.
Qed.

Lemma execute_opcode (instruction op : Z) (st : VM) :
  Z.shiftr instruction 12 = op →
  execute instruction st
  = (let opCode := op in
     if opCode =? OpBreak then keepRunning (caseOpBreak instruction st)
     else if opCode =? OpAdd then keepRunning (caseOpAdd instruction st)
     else if opCode =? OpLoad then keepRunning (caseOpLoad instruction st)
     else if opCode =? OpStore then keepRunning (caseOpStore instruction st)
     else if opCode =? OpJumpRegister then
       keepRunning (caseOpJumpRegister instruction st)
     else if opCode =? OpAnd then keepRunning (caseOpAnd instruction st)
     else if opCode =? OpLoadRegister then
       keepRunning (caseOpLoadRegister instruction st)
     else if opCode =? OpStoreRegister then
       keepRunning (caseOpStoreRegister instruction st)
     else if opCode =? OpRti then Panic NotImplemented
     else if opCode =? OpNot then keepRunning (caseOpNot instruction st)
     else if opCode =? OpLoadIndirect then
       keepRunning (caseOpLoadIndirect instruction st)
     else if opCode =? OpStoreIndirect then
       keepRunning (caseOpStoreIndirect instruction st)
     else if opCode =? OpJump then keepRunning (caseOpJump instruction st)
     else if opCode =? OpRes then Panic NotImplemented
     else if opCode =? OpLoadEffectiveAddress then
       keepRunning (caseOpLoadEffectiveAddress instruction st)
     else if opCode =? OpTrap then caseOpTrap instruction st
     else Ok (st, true)).
Proof. intros <-. reflexivity. Qed.

(** ADD.  On a well-formed machine ADD never fails: it writes the sum,
    wrapped to 16 bits, to the destination register and the flag of the sum
    to the condition register, and nothing else.  In immediate mode the
    addend is the signed value of the 5-bit field. *)
Theorem add_writes_wrapped_sum (instruction : Z) (st : VM) :
  wf st →
  Z.shiftr instruction 12 = OpAdd →
  let dest := Z.land (Z.shiftr instruction 9) 0x7 in
  let src1 := Z.land (Z.shiftr instruction 6) 0x7 in
  let src2 := Z.land instruction 0x7 in
  ∃ a b,
    registers st !! Z.to_nat src1 = Some a
    ∧ registers st !! Z.to_nat src2 = Some b
    ∧ execute instruction st
      = Ok (withResult dest
              (wrap16 (a + if Z.testbit instruction 5
                           then signedField (Z.land instruction 0x1F) 5
                           else b)) st, true).
Proof.
  intros Hwf Hop dest src1 src2.
  pose proof (field_3_bits (Z.shiftr instruction 9)) as Hd.
  pose proof (field_3_bits (Z.shiftr instruction 6)) as H1.
  pose proof (field_3_bits instruction) as H2.
  destruct (getReg_Ok src1 st Hwf) as (a & Ha & Hga); [unfold RCount; lia|].
  destruct (getReg_Ok src2 st Hwf) as (b & Hb & Hgb); [unfold RCount; lia|].
  exists a, b. split_and!; [done..|].
  rewrite (execute_opcode _ OpAdd) by done. cbn [Z.eqb OpAdd OpBreak Pos.eqb].
  unfold caseOpAdd. fold dest src1 src2.
  assert ((Z.land (Z.shiftr instruction 5) 0x1 =? 1)
          = Z.testbit instruction 5) as ->.
  { change 1 with (Z.ones 1) at 1. rewrite Z.land_ones by lia.
    rewrite <- Z.bit0_eqb, Z.shiftr_spec by lia. reflexivity. }
  destruct (Z.testbit instruction 5).
  - rewrite Hga, bind_Ok.
    assert (wrap16 (a + signExtend (Z.land instruction 0x1F) 5)
            = wrap16 (a + signedField (Z.land instruction 0x1F) 5)) as ->.
    { destruct (signExtend_value (Z.land instruction 0x1F) 5)
        as [-> _]; [lia| |].
      - change 0x1F with (Z.ones 5). rewrite Z.land_ones by lia.
        apply Z.mod_pos_bound. lia.
      - unfold wrap16. apply Zplus_mod_idemp_r. }
    rewrite setReg_updateFlags by (done || unfold RCount; lia). reflexivity.
  - rewrite Hga, bind_Ok, Hgb, bind_Ok.
    rewrite setReg_updateFlags by (done || unfold RCount; lia). reflexivity.
Qed.

Lemma add_writes_wrapped_sum_witness :
  let dest := Z.land (Z.shiftr 0x1021 9) 0x7 in
  let src1 := Z.land (Z.shiftr 0x1021 6) 0x7 in
  let src2 := Z.land 0x1021 0x7 in
  ∃ a b,
    registers haltAt3000 !! Z.to_nat src1 = Some a
    ∧ registers haltAt3000 !! Z.to_nat src2 = Some b
    ∧ execute 0x1021 haltAt3000
      = Ok (withResult dest
              (wrap16 (a + if Z.testbit 0x1021 5
                           then signedField (Z.land 0x1021 0x1F) 5
                           else b)) haltAt3000, true).
Proof.
  apply (add_writes_wrapped_sum 0x1021 haltAt3000).
  - split; vm_compute; reflexivity.
  - reflexivity.
Defined.

Lemma testbit_land_1 (x n : Z) :
  0 <= n → (Z.land (Z.shiftr x n) 0x1 =? 1) = Z.testbit x n.
Proof.
  intros Hn. change 1 with (Z.ones 1) at 1. rewrite Z.land_ones by lia.
  rewrite <- Z.bit0_eqb, Z.shiftr_spec by lia. reflexivity.
Qed.

(** AND.  On a well-formed machine AND never fails: it writes the bitwise
    conjunction to the destination register and its flag to the condition
    register, and nothing else.  With the immediate 0 the destination
    becomes 0 and the flag ZERO, whatever the source register holds. *)
Theorem and_writes_conjunction (instruction : Z) (st : VM) :
  wf st →
  Z.shiftr instruction 12 = OpAnd →
  let dest := Z.land (Z.shiftr instruction 9) 0x7 in
  let src1 := Z.land (Z.shiftr instruction 6) 0x7 in
  let src2 := Z.land instruction 0x7 in
  ∃ a b,
    registers st !! Z.to_nat src1 = Some a
    ∧ registers st !! Z.to_nat src2 = Some b
    ∧ execute instruction st
      = Ok (withResult dest
              (Z.land a (if Z.testbit instruction 5
                         then signExtend (Z.land instruction 0x1F) 5
                         else b)) st, true)
    ∧ (Z.testbit instruction 5 = true → Z.land instruction 0x1F = 0 →
       execute instruction st = Ok (withResult dest 0 st, true)
       ∧ flagOf 0 = FlagZero).
Proof.
  intros Hwf Hop dest src1 src2.
  pose proof (field_3_bits (Z.shiftr instruction 9)) as Hd.
  pose proof (field_3_bits (Z.shiftr instruction 6)) as H1.
  pose proof (field_3_bits instruction) as H2.
  destruct (getReg_Ok src1 st Hwf) as (a & Ha & Hga); [unfold RCount; lia|].
  destruct (getReg_Ok src2 st Hwf) as (b & Hb & Hgb); [unfold RCount; lia|].
  exists a, b.
  assert (execute instruction st
          = Ok (withResult dest
                  (Z.land a (if Z.testbit instruction 5
                             then signExtend (Z.land instruction 0x1F) 5
                             else b)) st, true)) as Hex.
  { rewrite (execute_opcode _ OpAnd) by done.
    cbn [Z.eqb OpAnd OpBreak OpAdd OpLoad OpStore OpJumpRegister Pos.eqb].
    unfold caseOpAnd. fold dest src1 src2. rewrite testbit_land_1 by lia.
    destruct (Z.testbit instruction 5).
    - rewrite Hga, bind_Ok.
      rewrite setReg_updateFlags by (done || unfold RCount; lia). reflexivity.
    - rewrite Hga, bind_Ok, Hgb, bind_Ok.
      rewrite setReg_updateFlags by (done || unfold RCount; lia). reflexivity. }
  split_and!; [done..|].
  intros Hi Hz. rewrite Hex, Hi, Hz. split; [|reflexivity].
  change (signExtend 0 5) with 0. by rewrite Z.land_0_r.
Qed.

Lemma and_writes_conjunction_witness :
  let dest := Z.land (Z.shiftr 0x5260 9) 0x7 in
  let src1 := Z.land (Z.shiftr 0x5260 6) 0x7 in
  let src2 := Z.land 0x5260 0x7 in
  ∃ a b,
    registers haltAt3000 !! Z.to_nat src1 = Some a
    ∧ registers haltAt3000 !! Z.to_nat src2 = Some b
    ∧ execute 0x5260 haltAt3000
      = Ok (withResult dest
              (Z.land a (if Z.testbit 0x5260 5
                         then signExtend (Z.land 0x5260 0x1F) 5
                         else b)) haltAt3000, true)
    ∧ (Z.testbit 0x5260 5 = true → Z.land 0x5260 0x1F = 0 →
       execute 0x5260 haltAt3000 = Ok (withResult dest 0 haltAt3000, true)
       ∧ flagOf 0 = FlagZero).
Proof.
  apply (and_writes_conjunction 0x5260 haltAt3000).
  - split; vm_compute; reflexivity.
  - reflexivity.
Defined.

Lemma lxor_0xffff (a : Z) : 0 <= a < 65536 → Z.lxor a 0xffff = 65535 - a.
Proof.
  intros Ha.
  assert (Z.land a (Z.lxor a 0xffff) = 0) as Hdisj.
  { apply Z.bits_inj'. intros i Hi.
    rewrite Z.land_spec, Z.lxor_spec, Z.bits_0.
    destruct (Z.lt_ge_cases i 16) as [Hlt|Hge].
    - change 0xffff with (Z.ones 16). rewrite Z.ones_spec_low by lia.
      by destruct (Z.testbit a i).
    - assert (Z.testbit a i = false) as ->; [|done].
      destruct (Z.eq_dec a 0) as [->|Hnz]; [apply Z.bits_0|].
      apply Z.bits_above_log2; [lia|].
      apply Z.log2_lt_pow2; [lia|].
      assert (2 ^ 16 <= 2 ^ i) by (apply Z.pow_le_mono_r; lia).
      change (2 ^ 16) with 65536 in *. lia. }
  pose proof (Z.add_nocarry_lxor _ _ Hdisj) as Hadd.
  rewrite <- Z.lxor_assoc, Z.lxor_nilpotent, Z.lxor_0_l in Hadd.
  lia.
Qed.

Lemma execute_not (instruction : Z) (st : VM) (a : Z) :
  wf st →
  Z.shiftr instruction 12 = OpNot →
  registers st !! Z.to_nat (Z.land (Z.shiftr instruction 6) 0x7) = Some a →
  0 <= a < 65536 →
  execute instruction st
  = Ok (withResult (Z.land (Z.shiftr instruction 9) 0x7) (65535 - a) st, true).
Proof.
  intros Hwf Hop Ha Hrange.
  pose proof (field_3_bits (Z.shiftr instruction 9)) as Hd.
  rewrite (execute_opcode _ OpNot) by done.
  cbn [Z.eqb OpNot OpBreak OpAdd OpLoad OpStore OpJumpRegister OpAnd
       OpLoadRegister OpStoreRegister OpRti Pos.eqb].
  unfold caseOpNot, getReg. rewrite (index_Some _ _ a), bind_Ok by done.
  rewrite lxor_0xffff by done.
  rewrite setReg_updateFlags by (done || unfold RCount; lia). reflexivity.
Qed.

Lemma wf_withResult (d v : Z) (st : VM) : wf st → wf (withResult d v st).
Proof.
  intros Hwf. apply wf_withRegisters; [done|]. by rewrite !length_insert.
Qed.

Lemma withResult_lookup (d v : Z) (st : VM) :
  wf st → 0 <= d < 8 →
  registers (withResult d v st) !! Z.to_nat d = Some v.
Proof.
  intros [_ Hr] Hd. unfold RCount in Hr. cbn.
  rewrite list_lookup_insert_ne by (unfold RCond; lia).
  apply list_lookup_insert_eq. lia.
Qed.

Lemma withResult_twice (d v w : Z) (st : VM) :
  0 <= d < 8 → withResult d w (withResult d v st) = withResult d w st.
Proof.
  intros Hd. unfold withResult, withRegisters. cbn. f_equal.
  rewrite (list_insert_insert_ne _ (Z.to_nat d) (Z.to_nat RCond))
    by (unfold RCond; lia).
  by rewrite !list_insert_insert_eq.
Qed.

(** NOT.  On a well-formed machine whose source register holds a 16-bit
    value [a], NOT writes [65535 - a] to the destination register and its
    flag to the condition register, and nothing else.  A second NOT of the
    destination into itself leaves [a] there: the two together move the
    source to the destination and set the flag of [a]. *)
Theorem not_writes_complement (first second : Z) (st : VM) (a : Z) :
  wf st →
  Z.shiftr first 12 = OpNot →
  Z.shiftr second 12 = OpNot →
  registers st !! Z.to_nat (Z.land (Z.shiftr first 6) 0x7) = Some a →
  0 <= a < 65536 →
  let dest := Z.land (Z.shiftr first 9) 0x7 in
  Z.land (Z.shiftr second 6) 0x7 = dest →
  Z.land (Z.shiftr second 9) 0x7 = dest →
  execute first st = Ok (withResult dest (65535 - a) st, true)
  ∧ execute second (withResult dest (65535 - a) st)
    = Ok (withResult dest a st, true).
Proof.
  intros Hwf H1 H2 Ha Hrange dest Hs Hd.
  pose proof (field_3_bits (Z.shiftr first 9)) as Hdest. fold dest in Hdest.
  split; [by apply execute_not|].
  rewrite (execute_not second _ (65535 - a)).
  - rewrite Hd, withResult_twice by done. f_equal. f_equal. f_equal. lia.
  - by apply wf_withResult.
  - done.
  - rewrite Hs. by apply withResult_lookup.
  - lia.
Qed.

Lemma not_writes_complement_witness :
  execute 0x927F haltAt3000 = Ok (withResult 1 (65535 - 6) haltAt3000, true)
  ∧ execute 0x927F (withResult 1 (65535 - 6) haltAt3000)
    = Ok (withResult 1 6 haltAt3000, true).
Proof.
  apply (not_writes_complement 0x927F 0x927F haltAt3000 6).
  - split; vm_compute; reflexivity.
  - reflexivity.
  - reflexivity.
  - reflexivity.
  - lia.
  - reflexivity.
  - reflexivity.
Defined.

(** ** Scope of the 9-bit offsets *)

Lemma signExtendLow9_signExtend (instruction : Z) :
  signExtendLow9 instruction = signExtend (Z.land instruction 0x1ff) 9.
Proof.
  unfold signExtendLow9, signExtend. change (9 - 1) with 8.
  rewrite testbit_land_1 by lia. reflexivity.
Qed.

Lemma land_0x1fff_split (x : Z) :
  Z.land x 0x1fff = Z.land x 0x1ff + Z.land x 0x1e00.
Proof.
  rewrite <- Z.add_lor_land.
  assert (Z.land (Z.land x 0x1ff) (Z.land x 0x1e00) = 0) as ->.
  { apply Z.bits_inj'. intros i Hi. rewrite !Z.land_spec, Z.bits_0.
    assert (Z.testbit 0x1ff i && Z.testbit 0x1e00 i = false) as Hm.
    { rewrite <- Z.land_spec. change (Z.land 0x1ff 0x1e00) with 0.
      apply Z.bits_0. }
    destruct (Z.testbit x i); [|done]. cbn [andb]. exact Hm. }
  rewrite Z.add_0_r, <- Z.land_lor_distr_r. reflexivity.
Qed.

Lemma lor_0xFE00_absorbs (x : Z) :
  Z.lor (Z.land x 0x1fff) 0xFE00 = Z.lor (Z.land x 0x1ff) 0xFE00.
Proof.
  apply Z.bits_inj'. intros i Hi. rewrite !Z.lor_spec, !Z.land_spec.
  destruct (Z.lt_ge_cases i 9) as [Hlt|Hge].
  - change 0x1fff with (Z.ones 13). change 0x1ff with (Z.ones 9).
    rewrite !Z.ones_spec_low by lia. reflexivity.
  - destruct (Z.lt_ge_cases i 13) as [Hlt|Hge'].
    + assert (Z.testbit 0xFE00 i = true) as ->; [|by rewrite !orb_true_r].
      change 0xFE00 with (Z.shiftl (Z.ones 7) 9).
      rewrite Z.shiftl_spec by lia. apply Z.ones_spec_low. lia.
    + change 0x1fff with (Z.ones 13). change 0x1ff with (Z.ones 9).
      rewrite !Z.ones_spec_high by lia. reflexivity.
Qed.

Lemma pcOffset9_scope_aux (instruction : Z) :
  pcOffset9 instruction = signExtendLow9 instruction
  ↔ Z.testbit instruction 8 = true ∨ Z.land instruction 0x1e00 = 0.
Proof.
  rewrite signExtendLow9_signExtend. unfold pcOffset9, signExtend.
  change (9 - 1) with 8. rewrite !testbit_land_1 by lia.
  rewrite !Z.land_spec.
  change (Z.testbit 0x1fff 8) with true. change (Z.testbit 0x1ff 8) with true.
  rewrite !andb_true_r.
  change (wrap16 (Z.shiftl 0xffff 9)) with 0xFE00.
  destruct (Z.testbit instruction 8).
  - rewrite lor_0xFE00_absorbs. split; auto.
  - rewrite land_0x1fff_split. split.
    + intros H. right. lia.
    + intros [H|H]; [discriminate|lia].
Qed.

(** The offset that the LD, LDI, ST, STI and LEA cases compute is the sign
    extension of bits 8-0 exactly when bit 8 is set (a negative offset) or
    bits 12-9 are all clear; otherwise it is larger by the value of bits
    12-9. *)
Theorem pcOffset9_scope (instruction : Z) :
  (pcOffset9 instruction = signExtendLow9 instruction
   ↔ Z.testbit instruction 8 = true ∨ Z.land instruction 0x1e00 = 0)
  ∧ (Z.testbit instruction 8 = false →
     pcOffset9 instruction
     = signExtendLow9 instruction + Z.land instruction 0x1e00).
Proof.
  split; [apply pcOffset9_scope_aux|].
  intros Hb. rewrite pcOffset9_bit8_clear by done.
  unfold signExtendLow9. rewrite Z.land_spec, Hb. cbn [andb].
  apply land_0x1fff_split.
Qed.

(** ** Control flow *)

Ltac pick_case :=
  cbn [Z.eqb Pos.eqb OpBreak OpAdd OpLoad OpStore OpJumpRegister OpAnd
       OpLoadRegister OpStoreRegister OpRti OpNot OpLoadIndirect
       OpStoreIndirect OpJump OpRes OpLoadEffectiveAddress OpTrap].

(** BR.  A branch is not taken, and leaves the whole machine as it is,
    when the condition register holds none of the three flags, as it does
    (0) from the start of [main] until the first instruction that sets a
    flag, even if all of n, z and p are set; and when none of n, z, p is
    set. *)
Theorem br_not_taken (instruction : Z) (st : VM) (cond : Z) :
  Z.shiftr instruction 12 = OpBreak →
  registers st !! Z.to_nat RCond = Some cond →
  (cond ≠ FlagNegative ∧ cond ≠ FlagZero ∧ cond ≠ FlagPositive)
  ∨ (Z.testbit instruction 11 = false ∧ Z.testbit instruction 10 = false
     ∧ Z.testbit instruction 9 = false) →
  execute instruction st = Ok (st, true).
Proof.
  intros Hop Hc Hcase. rewrite (execute_opcode _ OpBreak) by done. pick_case.
  unfold caseOpBreak, getReg.
  rewrite (index_Some (registers st) RCond cond), bind_Ok by done.
  rewrite !testbit_land_1 by lia.
  destruct Hcase as [(Hn & Hz & Hp) | (-> & -> & ->)]; [|reflexivity].
  destruct (Z.eqb_spec cond FlagNegative) as [|_]; [done|].
  destruct (Z.eqb_spec cond FlagZero) as [|_]; [done|].
  destruct (Z.eqb_spec cond FlagPositive) as [|_]; [done|].
  rewrite !andb_false_r. reflexivity.
Qed.

Lemma br_not_taken_witness :
  execute 0x0E05 (initial [] [] None) = Ok (initial [] [] None, true).
Proof.
  apply (br_not_taken 0x0E05 (initial [] [] None) 0).
  - reflexivity.
  - vm_compute. reflexivity.
  - left. vm_compute. split_and!; discriminate.
Defined.

Lemma pcPlusOffset_bit_clear (valInPc num bitCount : Z) :
  1 <= bitCount → Z.testbit num (bitCount - 1) = false →
  pcPlusOffset valInPc num bitCount = wrap16 (valInPc + num).
Proof.
  intros Hn Hb. unfold pcPlusOffset.
  rewrite testbit_land_1, Hb by lia. reflexivity.
Qed.

(** BR, taken forward.  When the condition register holds the flag of one
    of the set bits n, z, p and bit 8 of the instruction is clear, the
    program counter becomes PC plus the instruction masked with 0x1fff,
    wrapped to 16 bits, and nothing else changes.  The mask keeps the bits
    n, z, p, of which one at least is set, so the target lies beyond PC
    plus the 9-bit offset by the value of bits 12-9, which is not 0. *)
Theorem br_taken_forward (instruction : Z) (st : VM) (cond pc : Z) :
  wf st →
  Z.shiftr instruction 12 = OpBreak →
  registers st !! Z.to_nat RCond = Some cond →
  registers st !! Z.to_nat RPc = Some pc →
  (Z.testbit instruction 11 = true ∧ cond = FlagNegative)
  ∨ (Z.testbit instruction 10 = true ∧ cond = FlagZero)
  ∨ (Z.testbit instruction 9 = true ∧ cond = FlagPositive) →
  Z.testbit instruction 8 = false →
  execute instruction st
  = Ok (withRegisters
          (<[Z.to_nat RPc := wrap16 (pc + Z.land instruction 0x1fff)]>
             (registers st)) st, true)
  ∧ Z.land instruction 0x1fff
    = signExtendLow9 instruction + Z.land instruction 0x1e00
  ∧ Z.land instruction 0x1e00 ≠ 0.
Proof.
  intros [_ Hr] Hop Hc Hpc Hcase Hb. unfold RCount in Hr. split_and!.
  - rewrite (execute_opcode _ OpBreak) by done. pick_case.
    unfold caseOpBreak, getReg.
    rewrite (index_Some (registers st) RCond cond), bind_Ok by done.
    rewrite !testbit_land_1 by lia.
    assert (Z.testbit instruction 11 && (cond =? FlagNegative)
            || Z.testbit instruction 10 && (cond =? FlagZero)
            || Z.testbit instruction 9 && (cond =? FlagPositive) = true) as ->.
    { destruct Hcase as [[-> ->]|[[-> ->]|[-> ->]]];
        rewrite Z.eqb_refl; cbn [andb orb]; by rewrite ?orb_true_r. }
    rewrite (index_Some (registers st) RPc pc), bind_Ok by done.
    rewrite pcPlusOffset_bit_clear.
    + rewrite setReg_Ok by (unfold RPc; lia). reflexivity.
    + lia.
    + change (9 - 1) with 8. rewrite Z.land_spec, Hb. reflexivity.
  - unfold signExtendLow9. rewrite Z.land_spec, Hb. cbn [andb].
    apply land_0x1fff_split.
  - intros Hz.
    assert (∀ k, Z.testbit 0x1e00 k = true → Z.testbit instruction k = false)
      as Hbits.
    { intros k Hk.
      assert (Z.testbit (Z.land instruction 0x1e00) k = false) as Hl
        by (rewrite Hz; apply Z.bits_0).
      rewrite Z.land_spec, Hk, andb_true_r in Hl. exact Hl. }
    destruct Hcase as [[H _]|[[H _]|[H _]]];
      rewrite Hbits in H by reflexivity; discriminate H.
Qed.

Lemma br_taken_forward_witness :
  execute 0x0405 flagZeroAt3001
  = Ok (withRegisters
          (<[Z.to_nat RPc := wrap16 (0x3001 + Z.land 0x0405 0x1fff)]>
             (registers flagZeroAt3001)) flagZeroAt3001, true)
  ∧ Z.land 0x0405 0x1fff = signExtendLow9 0x0405 + Z.land 0x0405 0x1e00
  ∧ Z.land 0x0405 0x1e00 ≠ 0.
Proof.
  apply (br_taken_forward 0x0405 flagZeroAt3001 2 0x3001).
  - split; vm_compute; reflexivity.
  - reflexivity.
  - reflexivity.
  - reflexivity.
  - right. left. split; reflexivity.
  - reflexivity.
Defined.

Lemma execute_jsr (instruction : Z) (st : VM) (pc : Z) :
  wf st →
  Z.shiftr instruction 12 = OpJumpRegister →
  Z.testbit instruction 11 = true →
  registers st !! Z.to_nat RPc = Some pc →
  execute instruction st
  = Ok (withRegisters
          (<[Z.to_nat RPc :=
               wrap16 (pc + signedField (Z.land instruction 0x7ff) 11)]>
             (<[Z.to_nat R7 := pc]> (registers st))) st, true).
Proof.
  intros [_ Hr] Hop Hb Hpc. unfold RCount in Hr.
  rewrite (execute_opcode _ OpJumpRegister) by done. pick_case.
  unfold caseOpJumpRegister, getReg.
  rewrite (index_Some _ _ pc), bind_Ok by done.
  rewrite setReg_Ok, bind_Ok by (unfold R7; lia).
  rewrite testbit_land_1, Hb by lia.
  rewrite (index_Some _ _ pc), bind_Ok.
  2:{ cbn. rewrite list_lookup_insert_ne by (unfold R7, RPc; lia). done. }
  rewrite setReg_Ok by (cbn; rewrite length_insert; unfold RPc; lia).
  destruct (signExtend_value (Z.land instruction 0x7ff) 11) as [-> _];
    [lia| |].
  { change 0x7ff with (Z.ones 11). rewrite Z.land_ones by lia.
    apply Z.mod_pos_bound. lia. }
  unfold wrap16. rewrite Zplus_mod_idemp_r. reflexivity.
Qed.

Lemma execute_jmp (instruction : Z) (st : VM) (target : Z) :
  wf st →
  Z.shiftr instruction 12 = OpJump →
  registers st !! Z.to_nat (Z.land (Z.shiftr instruction 6) 0x7) = Some target →
  execute instruction st
  = Ok (withRegisters (<[Z.to_nat RPc := target]> (registers st)) st, true).
Proof.
  intros [_ Hr] Hop Ht. unfold RCount in Hr.
  rewrite (execute_opcode _ OpJump) by done. pick_case.
  unfold caseOpJump, getReg. rewrite (index_Some _ _ target), bind_Ok by done.
  rewrite setReg_Ok by (unfold RPc; lia). reflexivity.
Qed.

(** JSR and RET.  JSR saves the program counter in R7 and adds the signed
    11-bit offset to the program counter, wrapping to 16 bits; a JMP
    through R7 executed in the resulting machine puts the saved value back
    in the program counter.  No flag and no memory cell changes. *)
Theorem jsr_then_ret_returns (call ret : Z) (st : VM) (pc : Z) :
  wf st →
  Z.shiftr call 12 = OpJumpRegister →
  Z.testbit call 11 = true →
  Z.shiftr ret 12 = OpJump →
  Z.land (Z.shiftr ret 6) 0x7 = R7 →
  registers st !! Z.to_nat RPc = Some pc →
  let called :=
    withRegisters
      (<[Z.to_nat RPc := wrap16 (pc + signedField (Z.land call 0x7ff) 11)]>
         (<[Z.to_nat R7 := pc]> (registers st))) st in
  execute call st = Ok (called, true)
  ∧ execute ret called
    = Ok (withRegisters (<[Z.to_nat R7 := pc]> (registers st)) st, true).
Proof.
  intros Hwf Hc Hb Hr Hbase Hpc called. pose proof Hwf as [_ Hlen].
  unfold RCount in Hlen.
  split; [by apply execute_jsr|].
  rewrite (execute_jmp ret called pc).
  - unfold called, withRegisters. cbn. rewrite list_insert_insert_eq.
    rewrite list_insert_insert_ne by (unfold RPc, R7; lia).
    rewrite (list_insert_id _ (Z.to_nat RPc) pc) by done. reflexivity.
  - apply wf_withRegisters; [done|]. by rewrite !length_insert.
  - done.
  - rewrite Hbase. cbn.
    rewrite list_lookup_insert_ne by (unfold RPc, R7; lia).
    apply list_lookup_insert_eq. unfold R7. lia.
Qed.

Lemma jsr_then_ret_returns_witness :
  let called :=
    withRegisters
      (<[Z.to_nat RPc := wrap16 (0x3000 + signedField (Z.land 0x4FFE 0x7ff) 11)]>
         (<[Z.to_nat R7 := 0x3000]> (registers haltAt3000))) haltAt3000 in
  execute 0x4FFE haltAt3000 = Ok (called, true)
  ∧ execute 0xC1C0 called
    = Ok (withRegisters (<[Z.to_nat R7 := 0x3000]> (registers haltAt3000))
                        haltAt3000, true).
Proof.
  apply (jsr_then_ret_returns 0x4FFE 0xC1C0 haltAt3000 0x3000).
  - split; vm_compute; reflexivity.
  - reflexivity.
  - reflexivity.
  - reflexivity.
  - reflexivity.
  - reflexivity.
Defined.

(** JSRR.  The return address is written to R7 before the base register is
    read: through any other register JSRR jumps to the address held there,
    but through R7 it jumps to the return address, that is, it falls
    through to the next instruction, and the address that R7 held is
    lost. *)
Theorem jsrr_links_before_reading_base (instruction : Z) (st : VM) (pc target : Z) :
  wf st →
  Z.shiftr instruction 12 = OpJumpRegister →
  Z.testbit instruction 11 = false →
  registers st !! Z.to_nat RPc = Some pc →
  let base := Z.land (Z.shiftr instruction 6) 0x7 in
  registers st !! Z.to_nat base = Some target →
  execute instruction st
  = Ok (withRegisters
          (<[Z.to_nat RPc := if base =? R7 then pc else target]>
             (<[Z.to_nat R7 := pc]> (registers st))) st, true).
Proof.
  intros [_ Hr] Hop Hb Hpc base Ht. unfold RCount in Hr.
  pose proof (field_3_bits (Z.shiftr instruction 6)) as Hbase.
  fold base in Hbase.
  rewrite (execute_opcode _ OpJumpRegister) by done. pick_case.
  unfold caseOpJumpRegister, getReg.
  rewrite (index_Some _ _ pc), bind_Ok by done.
  rewrite setReg_Ok, bind_Ok by (unfold R7; lia).
  rewrite testbit_land_1, Hb by lia. fold base.
  rewrite (index_Some _ _ (if base =? R7 then pc else target)), bind_Ok.
  - rewrite setReg_Ok by (cbn; rewrite length_insert; unfold RPc; lia).
    reflexivity.
  - cbn. destruct (Z.eqb_spec base R7) as [->|Hne].
    + apply list_lookup_insert_eq. unfold R7. lia.
    + rewrite list_lookup_insert_ne by (unfold R7 in *; lia). done.
Qed.

Lemma jsrr_links_before_reading_base_witness :
  execute 0x41C0 haltAt3000
  = Ok (withRegisters
          (<[Z.to_nat RPc := if Z.land (Z.shiftr 0x41C0 6) 0x7 =? R7
                             then 0x3000 else 0]>
             (<[Z.to_nat R7 := 0x3000]> (registers haltAt3000)))
          haltAt3000, true).
Proof.
  apply (jsrr_links_before_reading_base 0x41C0 haltAt3000 0x3000 0).
  - split; vm_compute; reflexivity.
  - reflexivity.
  - reflexivity.
  - reflexivity.
  - reflexivity.
Defined.

(** ** Memory *)

Lemma wrap16_range (z : Z) : 0 <= wrap16 z < 65536.
Proof. unfold wrap16. apply Z.mod_pos_bound. lia. Qed.

Lemma wrap16_signExtend (base field n : Z) :
  1 <= n <= 16 → 0 <= field < 2 ^ n →
  wrap16 (base + signExtend field n) = wrap16 (base + signedField field n).
Proof.
  intros Hn Hf. destruct (signExtend_value field n) as [-> _]; [done..|].
  unfold wrap16. apply Zplus_mod_idemp_r.
Qed.

Lemma field_6_bits (x : Z) : 0 <= Z.land x 0x3f < 2 ^ 6.
Proof.
  change 0x3f with (Z.ones 6). rewrite Z.land_ones by lia.
  apply Z.mod_pos_bound. lia.
Qed.

Lemma wf_withMemory (mem : list Z) (st : VM) :
  wf st → length mem = length (memory st) → wf (withMemory mem st).
Proof. intros [Hm Hr] Hl. split; cbn; congruence. Qed.

(** STR and LDR.  On a well-formed machine, when base + signed 6-bit
    offset, wrapped to 16 bits, is not the last address 0xFFFF, STR writes
    the source register to memory at that address and changes nothing
    else.  If the address is not the keyboard status either, an LDR with
    the same base and offset executed in the resulting machine reads the
    value back into its destination register, sets the flag of the value,
    and clears the keyboard status cell. *)
Theorem str_then_ldr_reads_back (store load : Z) (st : VM) (base value : Z) :
  wf st →
  Z.shiftr store 12 = OpStoreRegister →
  Z.shiftr load 12 = OpLoadRegister →
  Z.land (Z.shiftr load 6) 0x7 = Z.land (Z.shiftr store 6) 0x7 →
  Z.land load 0x3f = Z.land store 0x3f →
  registers st !! Z.to_nat (Z.land (Z.shiftr store 6) 0x7) = Some base →
  registers st !! Z.to_nat (Z.land (Z.shiftr store 9) 0x7) = Some value →
  wrap16 (base + signedField (Z.land store 0x3f) 6) ≠ 0xFFFF →
  let address := wrap16 (base + signedField (Z.land store 0x3f) 6) in
  let written := <[Z.to_nat address := value]> (memory st) in
  execute store st = Ok (withMemory written st, true)
  ∧ written !! Z.to_nat address = Some value
  ∧ (address ≠ MrKbsr →
     execute load (withMemory written st)
     = Ok (withResult (Z.land (Z.shiftr load 9) 0x7) value
             (withMemory (<[Z.to_nat MrKbsr := 0]> written) st), true)).
Proof.
  intros Hwf Hs Hl Hb Ho Hbase Hval Hlast address written.
  fold address in Hlast.
  pose proof Hwf as [Hm Hr]. unfold uint16Max, RCount in *.
  pose proof (wrap16_range (base + signedField (Z.land store 0x3f) 6)) as Ha.
  fold address in Ha.
  pose proof (field_3_bits (Z.shiftr load 9)) as Hd.
  split_and!.
  - rewrite (execute_opcode _ OpStoreRegister) by done. pick_case.
    unfold caseOpStoreRegister, getReg.
    rewrite (index_Some _ (Z.land (Z.shiftr store 6) 0x7) base), bind_Ok
      by done.
    rewrite (index_Some _ (Z.land (Z.shiftr store 9) 0x7) value), bind_Ok
      by done.
    rewrite wrap16_signExtend by (lia || apply field_6_bits).
    fold address. unfold memWrite. rewrite setMem_Ok by lia. reflexivity.
  - unfold written. apply list_lookup_insert_eq. lia.
  - intros Hk.
    rewrite (execute_opcode _ OpLoadRegister) by done. pick_case.
    unfold caseOpLoadRegister, getReg. rewrite Hb, Ho.
    cbn [registers withMemory].
    rewrite (index_Some _ (Z.land (Z.shiftr store 6) 0x7) base), bind_Ok
      by done.
    rewrite wrap16_signExtend by (lia || apply field_6_bits).
    fold address.
    rewrite (memRead_clears_kbsr address _ value); cbn [memory withMemory];
      [ | done | unfold written; rewrite length_insert; unfold MrKbsr; lia
        | unfold written; apply list_lookup_insert_eq; lia ].
    rewrite bind_Ok.
    rewrite setReg_updateFlags; [reflexivity| |unfold RCount; lia].
    apply wf_withMemory; [by apply wf_withMemory; unfold written;
                             rewrite ?length_insert|].
    cbn. by rewrite length_insert.
Qed.

Lemma str_then_ldr_reads_back_witness :
  let address := wrap16 (4 + signedField (Z.land 0x74C1 0x3f) 6) in
  let written := <[Z.to_nat address := 5]> (memory haltAt3000) in
  address = 5
  ∧ execute 0x74C1 haltAt3000 = Ok (withMemory written haltAt3000, true)
  ∧ execute 0x66C1 (withMemory written haltAt3000)
    = Ok (withResult (Z.land (Z.shiftr 0x66C1 9) 0x7) 5
            (withMemory (<[Z.to_nat MrKbsr := 0]> written) haltAt3000), true).
Proof.
  intros address written.
  destruct (str_then_ldr_reads_back 0x74C1 0x66C1 haltAt3000 4 5)
    as (Hstore & _ & Hload).
  - split; vm_compute; reflexivity.
  - reflexivity.
  - reflexivity.
  - reflexivity.
  - reflexivity.
  - reflexivity.
  - reflexivity.
  - vm_compute. discriminate.
  - split_and!; [reflexivity|exact Hstore|].
    apply Hload. vm_compute. discriminate.
Defined.

(** Keyboard status with a key pending.  When [Getch] answers a key,
    reading KBSR takes one character from standard input: it returns
    0x8000, stores 0x8000 in the status cell and the low byte of the
    character in the data cell, and changes nothing else; when standard
    input is exhausted the read panics. *)
Theorem memRead_kbsr_key_pending (st : VM) (ch : Z) (keys : list Z) :
  wf st →
  screen st = ch :: keys → ch ≠ 0 →
  (reader st = [] → memRead MrKbsr st = Panic ReadFailed)
  ∧ (∀ c rest, reader st = c :: rest →
       memRead MrKbsr st
       = Ok (0x8000,
             mkVM (<[Z.to_nat MrKbdr := c mod 256]>
                     (<[Z.to_nat MrKbsr := 0x8000]> (memory st)))
                  (registers st) rest keys (shutdownCh st) (printed st))).
Proof.
  intros [Hm _] Hs Hch. unfold uint16Max in Hm.
  assert (checkKey st
          = (true, mkVM (memory st) (registers st) (reader st) keys
                        (shutdownCh st) (printed st))) as Hk.
  { unfold checkKey. rewrite Hs.
    destruct (Z.eqb_spec ch 0) as [|_]; [done|reflexivity]. }
  split.
  - intros Hr. unfold memRead. rewrite Z.eqb_refl, Hk.
    rewrite setMem_Ok, bind_Ok by (cbn; unfold MrKbsr; lia).
    unfold getChar. cbn [reader withMemory]. rewrite Hr. reflexivity.
  - intros c rest Hr. unfold memRead. rewrite Z.eqb_refl, Hk.
    rewrite setMem_Ok, bind_Ok by (cbn; unfold MrKbsr; lia).
    unfold getChar. cbn [reader withMemory]. rewrite Hr, bind_Ok.
    assert (wrap16 (c mod 256) = c mod 256) as ->.
    { unfold wrap16. apply Z.mod_small.
      pose proof (Z.mod_pos_bound c 256). lia. }
    rewrite setMem_Ok, bind_Ok
      by (cbn; rewrite length_insert; unfold MrKbdr; lia).
    unfold getMem, withMemory.
    cbn [memory registers reader screen shutdownCh printed].
    rewrite (index_Some _ _ 0x8000); [reflexivity|].
    rewrite list_lookup_insert_ne by (unfold MrKbsr, MrKbdr; lia).
    apply list_lookup_insert_eq. unfold MrKbsr. lia.
Qed.

Lemma memRead_kbsr_key_pending_witness :
  (reader (initial [0x161] [1] None) = [] →
   memRead MrKbsr (initial [0x161] [1] None) = Panic ReadFailed)
  ∧ (∀ c rest, reader (initial [0x161] [1] None) = c :: rest →
       memRead MrKbsr (initial [0x161] [1] None)
       = Ok (0x8000,
             mkVM (<[Z.to_nat MrKbdr := c mod 256]>
                     (<[Z.to_nat MrKbsr := 0x8000]>
                        (memory (initial [0x161] [1] None))))
                  (registers (initial [0x161] [1] None)) rest []
                  (shutdownCh (initial [0x161] [1] None))
                  (printed (initial [0x161] [1] None)))).
Proof.
  apply (memRead_kbsr_key_pending (initial [0x161] [1] None) 1 []).
  - apply wf_initial.
  - reflexivity.
  - lia.
Defined.

(** ** Character traps and unimplemented opcodes *)

(** GETC and IN.  Both take one character from standard input and put its
    low byte in R0; IN first prints its prompt, the 19 bytes of
    "Enter a character: ".  No other register changes,
    the condition flag included, and no memory cell.  When standard input
    is exhausted the machine panics. *)
Theorem trap_getc_in_reads_one_character (instruction : Z) (st : VM) :
  wf st →
  Z.shiftr instruction 12 = OpTrap →
  Z.land instruction 0xFF = TrapGetC ∨ Z.land instruction 0xFF = TrapIn →
  let prompt :=
    if Z.land instruction 0xFF =? TrapIn
    then [69; 110; 116; 101; 114; 32; 97; 32; 99; 104; 97; 114; 97; 99; 116;
          101; 114; 58; 32]
    else [] in
  (reader st = [] → execute instruction st = Panic ReadFailed)
  ∧ (∀ c rest, reader st = c :: rest →
       execute instruction st
       = Ok (mkVM (memory st) (<[Z.to_nat R0 := c mod 256]> (registers st))
                  rest (screen st) (shutdownCh st) (printed st ++ prompt),
             true)).
Proof.
  intros [_ Hr] Hop Hvec prompt. unfold RCount in Hr.
  assert (∀ c, wrap16 (c mod 256) = c mod 256) as Hw.
  { intros c. unfold wrap16. apply Z.mod_small.
    pose proof (Z.mod_pos_bound c 256). lia. }
  rewrite execute_trap by done. unfold caseOpTrap, prompt.
  destruct Hvec as [-> | ->]; cbn [Z.eqb Pos.eqb TrapGetC TrapIn TrapOut
                                   TrapPutS]; unfold getChar; split.
  - intros ->. reflexivity.
  - intros c rest ->. rewrite bind_Ok, Hw.
    rewrite setReg_Ok by (cbn; unfold R0; lia). cbn.
    by rewrite app_nil_r.
  - cbn [reader print withPrinted]. intros ->. reflexivity.
  - cbn [reader print withPrinted]. intros c rest ->. rewrite bind_Ok, Hw.
    rewrite setReg_Ok by (cbn; unfold R0; lia). reflexivity.
Qed.

Lemma trap_getc_in_reads_one_character_witness :
  let prompt :=
    if Z.land 0xF023 0xFF =? TrapIn
    then [69; 110; 116; 101; 114; 32; 97; 32; 99; 104; 97; 114; 97; 99; 116;
          101; 114; 58; 32]
    else [] in
  (reader (initial [0x161] [] None) = [] →
   execute 0xF023 (initial [0x161] [] None) = Panic ReadFailed)
  ∧ (∀ c rest, reader (initial [0x161] [] None) = c :: rest →
       execute 0xF023 (initial [0x161] [] None)
       = Ok (mkVM (memory (initial [0x161] [] None))
                  (<[Z.to_nat R0 := c mod 256]>
                     (registers (initial [0x161] [] None)))
                  rest (screen (initial [0x161] [] None))
                  (shutdownCh (initial [0x161] [] None))
                  (printed (initial [0x161] [] None) ++ prompt),
             true)).
Proof.
  apply (trap_getc_in_reads_one_character 0xF023 (initial [0x161] [] None)).
  - apply wf_initial.
  - reflexivity.
  - right. reflexivity.
Defined.

(** OUT.  The low byte of R0 is printed as a character, that is, in UTF-8:
    a byte below 0x80 as itself, a byte from 0x80 as the two bytes
    [0xC0 | b >> 6] and [0x80 | b & 0x3F].  Nothing else changes. *)
Theorem trap_out_prints_utf8 (instruction : Z) (st : VM) (r0 : Z) :
  Z.shiftr instruction 12 = OpTrap →
  Z.land instruction 0xFF = TrapOut →
  registers st !! Z.to_nat R0 = Some r0 →
  let b := Z.land r0 0xff in
  execute instruction st
  = Ok (print (if b <? 0x80 then [b]
               else [Z.lor 0xC0 (Z.shiftr b 6); Z.lor 0x80 (Z.land b 0x3F)])
              st, true).
Proof.
  intros Hop Hvec Hr b. rewrite execute_trap by done.
  unfold caseOpTrap. rewrite Hvec. cbn [Z.eqb Pos.eqb TrapGetC TrapOut].
  unfold getReg. rewrite (index_Some _ _ r0), bind_Ok by done.
  fold b. unfold stringOfRune.
  assert (b < 0x800) as Hb.
  { unfold b. change 0xff with (Z.ones 8). rewrite Z.land_ones by lia.
    pose proof (Z.mod_pos_bound r0 (2 ^ 8)). lia. }
  destruct (b <? 0x80); [reflexivity|].
  destruct (Z.ltb_spec b 0x800); [reflexivity|lia].
Qed.

Lemma trap_out_prints_utf8_witness :
  let b := Z.land 0x1E9 0xff in
  execute 0xF021 (withRegisters [0x1E9; 0; 0; 0; 0; 0; 0; 0; 0x3001; 0]
                                (initial [] [] None))
  = Ok (print (if b <? 0x80 then [b]
               else [Z.lor 0xC0 (Z.shiftr b 6); Z.lor 0x80 (Z.land b 0x3F)])
              (withRegisters [0x1E9; 0; 0; 0; 0; 0; 0; 0; 0x3001; 0]
                             (initial [] [] None)), true).
Proof.
  apply (trap_out_prints_utf8 0xF021 _ 0x1E9); reflexivity.
Defined.

(** RTI and the reserved opcode.  An instruction with opcode 8 or 13 panics
    in every machine, and a pass of the loop that fetches one ends the run
    with that panic. *)
Theorem rti_and_reserved_panic (fuel : nat) (instruction : Z) (st st0 st1 : VM) :
  Z.shiftr instruction 12 = OpRti ∨ Z.shiftr instruction 12 = OpRes →
  selectShutdown st = Some st0 →
  fetch st0 = Ok (instruction, st1) →
  execute instruction st1 = Panic NotImplemented
  ∧ run (S fuel) st = Panic NotImplemented.
Proof.
  intros Hop Hsel Hf.
  assert (execute instruction st1 = Panic NotImplemented) as Hex.
  { destruct Hop as [Hop|Hop]; rewrite (execute_opcode _ _ _ Hop);
      reflexivity. }
  split; [done|]. cbn [run]. rewrite Hsel.
  unfold cycle. rewrite Hf, bind_Ok, Hex. reflexivity.
Qed.

Lemma rti_and_reserved_panic_witness :
  execute 0x8000 (withRegisters [7; 6; 5; 4; 3; 2; 1; 0; 0x3001; 4] rtiAt3000)
  = Panic NotImplemented
  ∧ run 3 rtiAt3000 = Panic NotImplemented.
Proof.
  apply (rti_and_reserved_panic 2 0x8000 rtiAt3000 rtiAt3000
           (withRegisters [7; 6; 5; 4; 3; 2; 1; 0; 0x3001; 4] rtiAt3000)).
  - left. reflexivity.
  - compute_done.
  - compute_done.
Defined.

(** ** PUTSP *)

Lemma caseOpTrap_putsp (instruction : Z) (st : VM) :
  Z.land instruction 0xFF = TrapPutSP →
  caseOpTrap instruction st
  = (loc ← getReg R0 st;
     '(_, st1) ← TrapPutSP_loop loopFuel loc st;
     Ok (st1, true)).
Proof. intros H. unfold caseOpTrap. rewrite H. reflexivity. Qed.

(** The loop of PUTSP on a packed string that lies in memory clear of the
    keyboard status cell. *)
Lemma TrapPutSP_loop_string (ws : list Z) :
  ∀ (a last : Z) (st : VM) (fuel : nat),
    0 <= a → a + Z.of_nat (length ws) < 65536 →
    Forall (fun w => Z.land w 0xff ≠ 0 ∧ Z.shiftr w 8 ≠ 0) ws →
    Z.land last 0xff = 0 ∨ Z.shiftr last 8 = 0 →
    stored (memory st) a (ws ++ [last]) →
    a + Z.of_nat (length ws) < MrKbsr ∨ MrKbsr < a →
    (Z.to_nat MrKbsr < length (memory st))%nat →
    (length ws < fuel)%nat →
    TrapPutSP_loop fuel a st
    = Ok (a + Z.of_nat (length ws),
          mkVM (<[Z.to_nat MrKbsr := 0]> (memory st)) (registers st)
               (reader st) (screen st) (shutdownCh st)
               (printed st ++ putspOutput ws
                ++ if Z.land last 0xff =? 0 then []
                   else stringOfRune (Z.land last 0xff mod 256))).
Proof.
  induction ws as [|w ws IH];
    intros a last st fuel Ha Hend Hfull Hlast Hst Hk Hlen Hf;
    (destruct fuel as [|fuel]; [cbn in Hf; lia|]); cbn [TrapPutSP_loop];
    apply stored_cons in Hst as [Hhd Htl]; try done;
    cbn [length] in *.
  - rewrite (memRead_clears_kbsr a st last);
      [|unfold MrKbsr in *; lia|done..].
    rewrite bind_Ok. unfold putspOutput. cbn [map concat app].
    rewrite Z.add_0_r.
    destruct (Z.eqb_spec (Z.land last 0xff) 0) as [Hz|Hnz].
    + by rewrite app_nil_r.
    + destruct Hlast as [Hl|Hh]; [done|]. rewrite Hh. reflexivity.
  - rewrite (memRead_clears_kbsr a st w); [|unfold MrKbsr in *; lia|done..].
    rewrite bind_Ok.
    apply Forall_cons in Hfull as [[Hlo Hhi] Hfull].
    destruct (Z.eqb_spec (Z.land w 0xff) 0) as [|_]; [done|].
    destruct (Z.eqb_spec (Z.shiftr w 8) 0) as [|_]; [done|].
    assert (wrap16 (a + 1) = a + 1) as ->
      by (unfold wrap16; apply Z.mod_small; lia).
    rewrite (IH (a + 1) last); try done;
      cbn [memory registers reader screen shutdownCh printed print
           withPrinted withMemory];
      rewrite ?length_insert; try lia.
    + rewrite list_insert_insert_eq. unfold putspOutput. cbn [map concat].
      rewrite <- !app_assoc.
      replace (a + 1 + Z.of_nat (length ws))
        with (a + Z.of_nat (S (length ws))) by lia.
      reflexivity.
    + intros k x Hx. specialize (Htl k x Hx).
      apply lookup_lt_Some in Hx. rewrite length_app in Hx. cbn in Hx.
      rewrite list_lookup_insert_ne; [done|]. unfold MrKbsr in *. lia.
Qed.

(** PUTSP.  Let R0 hold [a], let memory from [a] on hold the words [ws],
    each with both bytes nonzero, followed by a word [last] whose low or
    high byte is zero, all inside the memory array and clear of the
    keyboard status cell.  Then TRAP 0x24 prints, for each word of [ws],
    the low byte and then the high byte as characters, then the low byte of
    [last] if it is not zero, and stops; the loop ends with [loc] at the
    address of [last], the keyboard status cell is cleared and the loop of
    [main] goes on. *)
Theorem putsp_prints_packed_string (st : VM) (instruction a last : Z) (ws : list Z) :
  wf st →
  Z.shiftr instruction 12 = OpTrap →
  Z.land instruction 0xFF = TrapPutSP →
  registers st !! Z.to_nat R0 = Some a →
  0 <= a →
  take (S (length ws)) (drop (Z.to_nat a) (memory st)) = ws ++ [last] →
  Forall (fun w => Z.land w 0xff ≠ 0 ∧ Z.shiftr w 8 ≠ 0) ws →
  Z.land last 0xff = 0 ∨ Z.shiftr last 8 = 0 →
  a + Z.of_nat (length ws) < MrKbsr ∨ MrKbsr < a →
  let st' := mkVM (<[Z.to_nat MrKbsr := 0]> (memory st)) (registers st)
                  (reader st) (screen st) (shutdownCh st)
                  (printed st ++ putspOutput ws
                   ++ if Z.land last 0xff =? 0 then []
                      else stringOfRune (Z.land last 0xff mod 256)) in
  execute instruction st = Ok (st', true)
  ∧ TrapPutSP_loop loopFuel a st = Ok (a + Z.of_nat (length ws), st').
Proof.
  intros [Hm _] Hop Hvec Hr0 Ha Hmem Hfull Hlast Hk st'.
  unfold uint16Max in Hm.
  assert (Z.to_nat a + S (length ws) <= length (memory st))%nat as Hin.
  { apply (f_equal length) in Hmem.
    rewrite length_take, length_drop, length_app in Hmem.
    cbn [length] in Hmem. lia. }
  pose proof loopFuel_eq as Hfuel.
  assert (TrapPutSP_loop loopFuel a st
          = Ok (a + Z.of_nat (length ws), st')) as Hloop.
  { apply TrapPutSP_loop_string.
    - done.
    - lia.
    - done.
    - done.
    - apply stored_take_drop. rewrite length_app. cbn [length].
      by rewrite Nat.add_1_r.
    - done.
    - unfold MrKbsr. lia.
    - lia. }
  split; [|exact Hloop].
  rewrite execute_trap, caseOpTrap_putsp by done.
  unfold getReg. rewrite (index_Some _ _ a) by done.
  rewrite bind_Ok, Hloop, bind_Ok. reflexivity.
Qed.

Lemma putsp_prints_packed_string_witness :
  ∃ st',
    execute 0xF024 putspAt4000 = Ok (st', true)
    ∧ printed st' = [0x48; 0x69; 0x21]
    ∧ TrapPutSP_loop loopFuel 0x4000 putspAt4000 = Ok (0x4001, st').
Proof.
  destruct (putsp_prints_packed_string putspAt4000 0xF024 0x4000 0x0021
              [0x6948]) as (Hex & Hloop).
  - split; vm_compute; reflexivity.
  - reflexivity.
  - reflexivity.
  - reflexivity.
  - lia.
  - vm_compute. reflexivity.
  - repeat constructor; vm_compute; discriminate.
  - right. reflexivity.
  - left. vm_compute. reflexivity.
  - eexists. split; [exact Hex|]. split; [reflexivity|exact Hloop].
Defined.

(** ** Image loader, in general *)






(** ** Termination of the string traps *)

(** PUTS and PUTSP always end.  On a well-formed machine whose R0 holds a
    16-bit value, TRAP 0x22 and TRAP 0x24 return within the 65536 passes
    allowed to their loops, with a machine or with a panic: a string with
    no terminator runs into the end of the memory array. *)
Theorem string_traps_terminate (instruction : Z) (st : VM) (r0 : Z) :
  wf st →
  Z.shiftr instruction 12 = OpTrap →
  Z.land instruction 0xFF = TrapPutS ∨ Z.land instruction 0xFF = TrapPutSP →
  registers st !! Z.to_nat R0 = Some r0 →
  0 <= r0 <= 65535 →
  execute instruction st ≠ OutOfFuel
  ∧ TrapPutS_loop loopFuel r0 st ≠ OutOfFuel
  ∧ TrapPutSP_loop loopFuel r0 st ≠ OutOfFuel.
Proof.
  intros Hwf Hop Hvec Hr0 Hrange.
  pose proof (TrapPutS_loop_total r0 st Hwf Hrange) as Hs.
  pose proof (TrapPutSP_loop_total r0 st Hwf Hrange) as Hp.
  split_and!; [|done..].
  rewrite execute_trap by done.
  destruct Hvec as [Hvec|Hvec];
    [rewrite caseOpTrap_puts by done | rewrite caseOpTrap_putsp by done];
    unfold getReg; rewrite (index_Some _ _ r0), bind_Ok by done.
  - destruct (TrapPutS_loop loopFuel r0 st) as [[loc st1]| |]; done.
  - destruct (TrapPutSP_loop loopFuel r0 st) as [[loc st1]| |]; done.
Qed.

Lemma string_traps_terminate_witness :
  execute 0xF022 (withRegisters [0xFE01; 0; 0; 0; 0; 0; 0; 0; 0x3001; 0]
                    (withMemory (replicate (Z.to_nat uint16Max) 0x41)
                                (initial [] [] None)))
  ≠ OutOfFuel.
Proof.
  apply (string_traps_terminate 0xF022 _ 0xFE01).
  - split; vm_compute; reflexivity.
  - reflexivity.
  - left. reflexivity.
  - reflexivity.
  - lia.
Defined.

(** ** Loads *)

Lemma fetch_clears_kbsr (st : VM) (pc instruction : Z) :
  wf st →
  registers st !! Z.to_nat RPc = Some pc →
  pc ≠ MrKbsr →
  memory st !! Z.to_nat pc = Some instruction →
  fetch st
  = Ok (instruction,
        withRegisters (<[Z.to_nat RPc := wrap16 (pc + 1)]> (registers st))
          (withMemory (<[Z.to_nat MrKbsr := 0]> (memory st)) st)).
Proof.
  intros [Hm Hr] Hpc Hne Hi. unfold uint16Max, RCount in *.
  unfold fetch, getReg. rewrite (index_Some _ _ pc), bind_Ok by done.
  rewrite (memRead_clears_kbsr pc st instruction), bind_Ok;
    [|done|unfold MrKbsr; lia|done].
  cbn [registers withMemory].
  rewrite (index_Some _ _ pc), bind_Ok by done.
  rewrite setReg_Ok by (cbn; unfold RPc; lia). reflexivity.
Qed.

(** Polling the keyboard.  The fetch of an instruction is itself a read of
    a cell other than the keyboard status, so it clears the status cell.
    A pass of the loop that executes an LDR from the keyboard status
    address while [checkKey] finds no key (whether or not a key comes
    later) therefore loads 0 and sets the flag ZERO, whatever the status
    cell held before the pass; the poll is the only thing taken from the
    key script. *)
Theorem poll_kbsr_without_key_loads_zero
    (st idle : VM) (instruction pc base : Z) :
  wf st →
  registers st !! Z.to_nat RPc = Some pc →
  pc ≠ MrKbsr →
  memory st !! Z.to_nat pc = Some instruction →
  Z.shiftr instruction 12 = OpLoadRegister →
  registers st !! Z.to_nat (Z.land (Z.shiftr instruction 6) 0x7) = Some base →
  wrap16 (base + signedField (Z.land instruction 0x3f) 6) = MrKbsr →
  checkKey st = (false, idle) →
  ∃ st',
    cycle st = Ok (st', true)
    ∧ memory st' = <[Z.to_nat MrKbsr := 0]> (memory st)
    ∧ registers st'
      = <[Z.to_nat RCond := 2]>
          (<[Z.to_nat (Z.land (Z.shiftr instruction 9) 0x7) := 0]>
             (<[Z.to_nat RPc := wrap16 (pc + 1)]> (registers st)))
    ∧ screen st' = screen idle
    ∧ reader st' = reader st
    ∧ printed st' = printed st.
Proof.
  intros Hwf Hpc Hne Hi Hop Hbase Haddr Hs.
  pose proof Hwf as [Hm Hr]. unfold uint16Max, RCount in *.
  pose proof (field_3_bits (Z.shiftr instruction 6)) as Hb.
  pose proof (field_3_bits (Z.shiftr instruction 9)) as Hd.
  unfold cycle. rewrite (fetch_clears_kbsr st pc instruction), bind_Ok by done.
  set (st1 := withRegisters _ _).
  set (st2 := mkVM (memory st1) (registers st1) (reader st1) (screen idle)
                   (shutdownCh st1) (printed st1)).
  assert (checkKey st1 = (false, st2)) as Hs1.
  { unfold checkKey in *. subst st2 st1. cbn in *.
    destruct (screen st) as [|ch rest].
    - injection Hs as <-. reflexivity.
    - injection Hs as Hch <-. rewrite Hch. reflexivity. }
  assert (wf st2) as Hwf2.
  { split; subst st2 st1; cbn; rewrite length_insert; done. }
  rewrite (execute_opcode _ OpLoadRegister) by done. pick_case.
  unfold caseOpLoadRegister, getReg.
  rewrite (index_Some _ (Z.land (Z.shiftr instruction 6) 0x7) base), bind_Ok.
  2:{ subst st1. cbn. rewrite list_lookup_insert_ne by (unfold RPc; lia).
      done. }
  rewrite wrap16_signExtend by (lia || apply field_6_bits). rewrite Haddr.
  rewrite (memRead_kbsr_idle st1 st2 0), bind_Ok.
  - rewrite setReg_updateFlags by (done || unfold RCount; lia).
    eexists. split; [reflexivity|]. subst st2 st1. cbn. done.
  - exact Hs1.
  - subst st1. cbn. apply list_lookup_insert_eq. unfold MrKbsr. lia.
Qed.

Lemma poll_kbsr_without_key_loads_zero_witness :
  ∃ st',
    cycle pollAt3000 = Ok (st', true)
    ∧ memory st' = <[Z.to_nat MrKbsr := 0]> (memory pollAt3000)
    ∧ registers st' = [0; 0xFE00; 0; 0; 0; 0; 0; 0; 0x3001; 2]
    ∧ screen st' = [0x41].
Proof.
  destruct (poll_kbsr_without_key_loads_zero pollAt3000
              (mkVM (memory pollAt3000) (registers pollAt3000) [] [0x41] None [])
              0x6040 0x3000 0xFE00)
    as (st' & Hc & Hm & Hr & Hs & _).
  - split; vm_compute; reflexivity.
  - reflexivity.
  - vm_compute. discriminate.
  - vm_compute. reflexivity.
  - reflexivity.
  - reflexivity.
  - reflexivity.
  - reflexivity.
  - exists st'. split_and!; [exact Hc|exact Hm| |exact Hs].
    rewrite Hr. reflexivity.
Defined.

Lemma execute_load_effective_address (instruction : Z) (st : VM) (pc : Z) :
  wf st →
  Z.shiftr instruction 12 = OpLoadEffectiveAddress →
  registers st !! Z.to_nat RPc = Some pc →
  execute instruction st
  = Ok (withResult (Z.land (Z.shiftr instruction 9) 0x7)
          (wrap16 (pc + pcOffset9 instruction)) st, true).
Proof.
  intros Hwf Hop Hpc.
  pose proof (field_3_bits (Z.shiftr instruction 9)) as Hd.
  rewrite (execute_opcode _ OpLoadEffectiveAddress) by done. pick_case.
  unfold caseOpLoadEffectiveAddress, getReg.
  rewrite (index_Some _ _ pc), bind_Ok by done.
  rewrite setReg_updateFlags by (done || unfold RCount; lia). reflexivity.
Qed.

(** LEA.  On a well-formed machine LEA never fails: it writes PC plus the
    offset of the instruction, wrapped to 16 bits, to the destination
    register and sets the condition flag of that address; memory is not
    read, so the keyboard status cell is left alone.  For a negative
    offset (bit 8 set) the offset is the sign extension of bits 8-0. *)
Theorem lea_writes_address_and_flag (instruction : Z) (st : VM) (pc : Z) :
  wf st →
  Z.shiftr instruction 12 = OpLoadEffectiveAddress →
  registers st !! Z.to_nat RPc = Some pc →
  execute instruction st
  = Ok (withResult (Z.land (Z.shiftr instruction 9) 0x7)
          (wrap16 (pc + pcOffset9 instruction)) st, true)
  ∧ memory (withResult (Z.land (Z.shiftr instruction 9) 0x7)
              (wrap16 (pc + pcOffset9 instruction)) st) = memory st
  ∧ (Z.testbit instruction 8 = true →
     pcOffset9 instruction = signExtendLow9 instruction).
Proof.
  intros Hwf Hop Hpc. split_and!.
  - by apply execute_load_effective_address.
  - reflexivity.
  - intros Hb. apply pcOffset9_scope_aux. by left.
Qed.

Lemma lea_writes_address_and_flag_witness :
  execute 0xE1FF haltAt3000
  = Ok (withResult (Z.land (Z.shiftr 0xE1FF 9) 0x7)
          (wrap16 (0x3000 + pcOffset9 0xE1FF)) haltAt3000, true)
  ∧ memory (withResult (Z.land (Z.shiftr 0xE1FF 9) 0x7)
              (wrap16 (0x3000 + pcOffset9 0xE1FF)) haltAt3000)
    = memory haltAt3000
  ∧ (Z.testbit 0xE1FF 8 = true → pcOffset9 0xE1FF = signExtendLow9 0xE1FF).
Proof.
  apply (lea_writes_address_and_flag 0xE1FF haltAt3000 0x3000).
  - split; vm_compute; reflexivity.
  - reflexivity.
  - reflexivity.
Defined.

(** LD.  Let [a] be PC plus the offset of the instruction, wrapped to 16
    bits, an address in the memory array other than the keyboard status.
    LD writes the word at [a] to the destination register, sets its flag,
    and clears the keyboard status cell. *)
Theorem ld_loads_word (instruction : Z) (st : VM) (pc word : Z) :
  wf st →
  Z.shiftr instruction 12 = OpLoad →
  registers st !! Z.to_nat RPc = Some pc →
  wrap16 (pc + pcOffset9 instruction) ≠ MrKbsr →
  memory st !! Z.to_nat (wrap16 (pc + pcOffset9 instruction)) = Some word →
  execute instruction st
  = Ok (withResult (Z.land (Z.shiftr instruction 9) 0x7) word
          (withMemory (<[Z.to_nat MrKbsr := 0]> (memory st)) st), true).
Proof.
  intros Hwf Hop Hpc Hne Hw.
  pose proof Hwf as [Hm Hr]. unfold uint16Max, RCount in *.
  pose proof (field_3_bits (Z.shiftr instruction 9)) as Hd.
  assert (wf (withMemory (<[Z.to_nat MrKbsr := 0]> (memory st)) st)) as Hwf1.
  { apply wf_withMemory; [done|]. by rewrite length_insert. }
  rewrite (execute_opcode _ _ _ Hop). pick_case.
  unfold caseOpLoad, getReg. rewrite (index_Some _ _ pc), bind_Ok by done.
  fold (pcOffset9 instruction).
  rewrite (memRead_clears_kbsr _ st word), bind_Ok;
    [|done|unfold MrKbsr; lia|done].
  rewrite setReg_updateFlags by (done || unfold RCount; lia). reflexivity.
Qed.

Lemma ld_loads_word_witness :
  execute 0x21FF (withRegisters [7; 6; 5; 4; 3; 2; 1; 0; 0x3001; 4] haltAt3000)
  = Ok (withResult (Z.land (Z.shiftr 0x21FF 9) 0x7) 0xF025
          (withMemory
             (<[Z.to_nat MrKbsr := 0]>
                (memory (withRegisters [7; 6; 5; 4; 3; 2; 1; 0; 0x3001; 4]
                                       haltAt3000)))
             (withRegisters [7; 6; 5; 4; 3; 2; 1; 0; 0x3001; 4] haltAt3000)),
        true).
Proof.
  apply (ld_loads_word 0x21FF _ 0x3001 0xF025).
  - split; vm_compute; reflexivity.
  - reflexivity.
  - reflexivity.
  - vm_compute. discriminate.
  - vm_compute. reflexivity.
Defined.

(** LDI.  Let [a] be PC plus the offset of the instruction, wrapped to 16
    bits, and let the word at [a] be itself an address [p]; let both be in
    the memory array and other than the keyboard status.  LDI writes the
    word at [p] to the destination register, sets its flag, and clears the
    keyboard status cell. *)
Theorem ldi_loads_through_pointer (instruction : Z) (st : VM) (pc p word : Z) :
  wf st →
  Z.shiftr instruction 12 = OpLoadIndirect →
  registers st !! Z.to_nat RPc = Some pc →
  wrap16 (pc + pcOffset9 instruction) ≠ MrKbsr →
  memory st !! Z.to_nat (wrap16 (pc + pcOffset9 instruction)) = Some p →
  p ≠ MrKbsr →
  memory st !! Z.to_nat p = Some word →
  execute instruction st
  = Ok (withResult (Z.land (Z.shiftr instruction 9) 0x7) word
          (withMemory (<[Z.to_nat MrKbsr := 0]> (memory st)) st), true).
Proof.
  intros Hwf Hop Hpc Hne Hw Hne' Hp.
  pose proof Hwf as [Hm Hr]. unfold uint16Max, RCount in *.
  pose proof (field_3_bits (Z.shiftr instruction 9)) as Hd.
  assert (wf (withMemory (<[Z.to_nat MrKbsr := 0]> (memory st)) st)) as Hwf1.
  { apply wf_withMemory; [done|]. by rewrite length_insert. }
  rewrite (execute_opcode _ _ _ Hop). pick_case.
  unfold caseOpLoadIndirect, getReg.
  rewrite (index_Some _ _ pc), bind_Ok by done.
  fold (pcOffset9 instruction).
  rewrite (memRead_clears_kbsr _ st p), bind_Ok;
    [|done|unfold MrKbsr; lia|done].
  rewrite (memRead_clears_kbsr p _ word), bind_Ok;
    [|done|cbn; rewrite length_insert; unfold MrKbsr; lia|].
  - cbn [memory withMemory]. rewrite list_insert_insert_eq.
    rewrite setReg_updateFlags by (done || unfold RCount; lia).
    reflexivity.
  - cbn. rewrite list_lookup_insert_ne; [done|].
    apply lookup_lt_Some in Hp. unfold MrKbsr in *. lia.
Qed.

Lemma ldi_loads_through_pointer_witness :
  execute 0xA1FF (withRegisters [7; 6; 5; 4; 3; 2; 1; 0; 0x3001; 4] haltAt3000)
  = Ok (withResult (Z.land (Z.shiftr 0xA1FF 9) 0x7) 0
          (withMemory
             (<[Z.to_nat MrKbsr := 0]>
                (memory (withRegisters [7; 6; 5; 4; 3; 2; 1; 0; 0x3001; 4]
                                       haltAt3000)))
             (withRegisters [7; 6; 5; 4; 3; 2; 1; 0; 0x3001; 4] haltAt3000)),
        true).
Proof.
  apply (ldi_loads_through_pointer 0xA1FF _ 0x3001 0xF025 0).
  - split; vm_compute; reflexivity.
  - reflexivity.
  - reflexivity.
  - vm_compute. discriminate.
  - vm_compute. reflexivity.
  - vm_compute. discriminate.
  - vm_compute. reflexivity.
Defined.

(** ** Stores with a non-negative offset *)

Lemma land_0x1fff_bit12 (instruction : Z) :
  Z.testbit instruction 12 = true →
  0x1000 <= Z.land instruction 0x1fff < 0x2000.
Proof.
  intros Hb.
  assert (Z.land instruction 0x1fff
          = Z.land instruction 0xfff + Z.land instruction 0x1000) as ->.
  { rewrite <- Z.add_lor_land.
    assert (Z.land (Z.land instruction 0xfff) (Z.land instruction 0x1000) = 0)
      as ->.
    { apply Z.bits_inj'. intros i Hi. rewrite !Z.land_spec, Z.bits_0.
      assert (Z.testbit 0xfff i && Z.testbit 0x1000 i = false) as Hm.
      { rewrite <- Z.land_spec. change (Z.land 0xfff 0x1000) with 0.
        apply Z.bits_0. }
      destruct (Z.testbit instruction i); [|done]. cbn [andb]. exact Hm. }
    rewrite Z.add_0_r, <- Z.land_lor_distr_r. reflexivity. }
  assert (Z.land instruction 0x1000 = 0x1000) as ->.
  { apply Z.bits_inj'. intros i Hi. rewrite Z.land_spec.
    destruct (Z.eq_dec i 12) as [->|Hne]; [by rewrite Hb|].
    change 0x1000 with (2 ^ 12). rewrite Z.pow2_bits_false by lia.
    apply andb_false_r. }
  change 0xfff with (Z.ones 12). rewrite Z.land_ones by lia.
  pose proof (Z.mod_pos_bound instruction (2 ^ 12)). lia.
Qed.

(** ST and STI with a non-negative offset.  Both opcodes have bit 12 set,
    and the mask 0x1fff keeps it in the offset when bit 8 is clear: the
    index into the register file is then at least 0x1008, and the
    instruction panics in every well-formed machine. *)
Theorem store_nonnegative_offset_panics (instruction : Z) (st : VM) :
  wf st →
  Z.shiftr instruction 12 = OpStore ∨ Z.shiftr instruction 12 = OpStoreIndirect →
  Z.testbit instruction 8 = false →
  execute instruction st = Panic IndexOutOfRange.
Proof.
  intros [_ Hr] Hop Hb. unfold RCount in Hr.
  assert (Z.testbit instruction 12 = true) as H12.
  { replace 12 with (0 + 12) by lia. rewrite <- Z.shiftr_spec by lia.
    destruct Hop as [-> | ->]; reflexivity. }
  pose proof (land_0x1fff_bit12 instruction H12) as Hrange.
  assert (index (registers st) (wrap16 (RPc + pcOffset9 instruction))
          = Panic IndexOutOfRange) as Hidx.
  { apply index_None. rewrite pcOffset9_bit8_clear by done.
    unfold wrap16, RPc. rewrite Z.mod_small by lia. lia. }
  destruct Hop as [Hop|Hop]; rewrite (execute_opcode _ _ _ Hop); pick_case.
  - unfold caseOpStore, getReg. fold (pcOffset9 instruction).
    rewrite Hidx. reflexivity.
  - unfold caseOpStoreIndirect, getReg. fold (pcOffset9 instruction).
    rewrite Hidx. reflexivity.
Qed.

Lemma store_nonnegative_offset_panics_witness :
  execute 0x3000 (initial [] [] None) = Panic IndexOutOfRange.
Proof.
  apply (store_nonnegative_offset_panics 0x3000 (initial [] [] None)).
  - apply wf_initial.
  - left. reflexivity.
  - reflexivity.
Defined.
